(** * Verification of the notebook [tutorials/IV.Research.ipynb]

    The notebook configures a hyper-parameter sweep over ResNet variants.
    Its own code consists of a handful of constants, a configuration
    dictionary, and five small helper functions ([center_flip],
    [make_data], [aggregate_crops], [get_trainable_variables],
    [calc_metrics]).  This file embeds that code and states what it does.

    Conventions of the embedding:
    - Python integers are [Z]; floor division [//] is [Z.div] (the divisors
      that occur are positive constants).
    - Array elements are real numbers ([R]): exact arithmetic, no rounding.
    - A call that may raise returns in the monad [M], which carries the
      exception (if any) together with the control-flow events (branches
      taken, loop iterations) the notebook's own code went through. *)

From Stdlib Require Import ZArith Reals Lra Lia List Ascii String.
From stdpp Require Import base gmap strings list pretty.

Local Open Scope Z_scope.

(** ** Experiment constants (cells 32, 45 and 47) *)

Module Constants.

Definition BATCH_SIZE : Z := 32.
Definition EPOCHS : Z := 300.
Definition TEST_EACH_EPOCH : Z := 20.

Definition N_REPS : Z := 5.
Definition N_BRANCHES : Z := 2.
Definition N_WORKERS : Z := 3.
Definition GPU : list Z := [1; 2; 3; 4; 5; 6].

(** [TRAIN_SIZE = len(eds.train)] depends on the data directory; the
    derived quantities are functions of it. *)

Definition ITERATIONS (TRAIN_SIZE : Z) : Z :=
  ((TRAIN_SIZE / BATCH_SIZE) + 1) * EPOCHS.

(** [ITERATIONS // EPOCHS * TEST_EACH_EPOCH]: [//] and [*] have the same
    precedence and associate to the left. *)
Definition TEST_EXEC_FOR (TRAIN_SIZE : Z) : Z :=
  ITERATIONS TRAIN_SIZE / EPOCHS * TEST_EACH_EPOCH.

(** ['%{}'.format(n)] for an integer [n]: the percent sign followed by the
    decimal numeral of [n]. *)
Definition format_percent (n : Z) : string := "%" +:+ pretty n.

Definition STR_EXEC (TRAIN_SIZE : Z) : string :=
  format_percent (TEST_EXEC_FOR TRAIN_SIZE).

End Constants.

(** ** Decimal numerals

    What it means for a string to be the decimal representation of a
    non-negative integer, stated independently of the printing function:
    reading the digits from left to right gives the value, and there is no
    superfluous leading zero. *)

Module Decimal.

Definition digit_value (c : ascii) : option Z :=
  let n := Z.of_N (N_of_ascii c) in
  if (48 <=? n) && (n <=? 57) then Some (n - 48) else None.

Fixpoint horner (acc : Z) (s : string) : option Z :=
  match s with
  | EmptyString => Some acc
  | String c s' =>
      match digit_value c with
      | Some d => horner (10 * acc + d) s'
      | None => None
      end
  end.

Definition value (s : string) : option Z :=
  match s with
  | EmptyString => None
  | String c EmptyString => digit_value c
  | String c _ => if Ascii.eqb c "0" then None else horner 0 s
  end.

End Decimal.

(** ** Exceptions, effects and the monad of notebook code *)

(** The exceptions that the library calls used by the notebook can raise;
    [Raised] stands for any exception of a caller-supplied function. *)
Inductive exn : Type :=
  | ValueError
  | IndexError
  | KeyError
  | ZeroDivisionError
  | Raised (msg : string).

Inductive outcome (A : Type) : Type :=
  | Ok (a : A)
  | Raise (e : exn).
Arguments Ok {A} a.
Arguments Raise {A} e.

(** A two-dimensional array: its number of columns and its rows.  The
    column count is kept apart so that an array without rows still has a
    shape [(0, ncols)]. *)
Record Array2 : Type := mkArray2 { ncols : nat; rows : list (list R) }.

Definition nrows (a : Array2) : nat := length (rows a).

(** Every row has [ncols] entries. *)
Definition rectangular (a : Array2) : Prop :=
  Forall (fun r => length r = ncols a) (rows a).

(** What a run of notebook code does besides returning: the conditional
    branches and loop iterations of the notebook's own code, and in-place
    writes to an array object owned by the caller. *)
Inductive event : Type :=
  | Branch (cond : bool)
  | Iter
  | InPlace (a : Array2).

Definition is_control_flow (ev : event) : bool :=
  match ev with
  | Branch _ | Iter => true
  | InPlace _ => false
  end.

Definition M (A : Type) : Type := (list event * outcome A)%type.

Definition ret {A} (a : A) : M A := ([], Ok a).

Definition bind {A B} (m : M A) (k : A -> M B) : M B :=
  match m with
  | (t, Raise e) => (t, Raise e)
  | (t, Ok a) => let '(t', r) := k a in (t ++ t', r)
  end.

Notation "'let*' x ':=' e 'in' k" := (bind e (fun x => k))
  (at level 10, x name, e at level 200, k at level 200, only parsing).

(** A library call: no event of the notebook's own. *)
Definition lib {A} (r : outcome A) : M A := ([], r).

Definition emit (ev : event) : M unit := ([ev], Ok tt).

(** [if cond: body] followed by the code after it. *)
Definition if_then {A} (cond : bool) (body : M A) (skip : M A) : M A :=
  let* _ := emit (Branch cond) in
  if cond then body else skip.

(** [[f(x) for x in l]] *)
Fixpoint comprehension {A B} (f : A -> M B) (l : list A) : M (list B) :=
  match l with
  | [] => ret []
  | x :: l' =>
      let* _ := emit Iter in
      let* y := f x in
      let* ys := comprehension f l' in
      ret (y :: ys)
  end.

Definition trace {A} (m : M A) : list event := fst m.
Definition result {A} (m : M A) : outcome A := snd m.

Definition control_flow {A} (m : M A) : list event :=
  filter (fun ev => is_control_flow ev = true) (trace m).

(** The caller's array after the run: the last in-place write, if any. *)
Definition array_after {A} (arr : Array2) (m : M A) : Array2 :=
  fold_left (fun a ev => match ev with InPlace a' => a' | _ => a end)
            (trace m) arr.

(** ** The NumPy and Python primitives the helper functions call *)

Module Np.

Definition sum (l : list R) : R := fold_right Rplus 0%R l.

(** [np.mean] inside an [@njit] function: the compiled body ends in
    [c / a.size] under Python error semantics, which raises on an empty
    array. *)
Definition mean (l : list R) : outcome R :=
  match l with
  | [] => Raise ZeroDivisionError
  | _ => Ok (sum l / INR (length l))%R
  end.

(** [np.random.choice(np.array([1, -1]))]; [draw] tells which of the two
    entries the generator picks. *)
Definition random_choice_sign (draw : bool) : R :=
  if draw then 1%R else (-1)%R.

(** [np.repeat(a, repeats, axis=0)]: a single repeat count is broadcast,
    otherwise there must be one count per entry. *)
Definition repeat {A} (a : list A) (repeats : list nat) : outcome (list A) :=
  match repeats with
  | [n] => Ok (flat_map (fun x => List.repeat x n) a)
  | _ => if Nat.eqb (length a) (length repeats)
         then Ok (flat_map (fun '(x, n) => List.repeat x n)
                           (combine a repeats))
         else Raise ValueError
  end.

(** [np.array] of a list of arrays, each given by its shape and its
    content: arrays of one shape are stacked along a new first axis,
    arrays of different shapes raise. *)
Definition array {A} (l : list (list nat * A)) : outcome (list A) :=
  match l with
  | [] => Ok []
  | (shape, _) :: l' =>
      if forallb (fun item => bool_decide (fst item = shape)) l'
      then Ok (map snd l)
      else Raise ValueError
  end.

(** Python slicing [l[st:en]] with possibly negative or out-of-range
    bounds. *)
Definition slice_bound (n i : Z) : Z :=
  if i <? 0 then Z.max (i + n) 0 else Z.min i n.

Definition py_slice {A} (l : list A) (st en : Z) : list A :=
  let n := Z.of_nat (length l) in
  let a := slice_bound n st in
  let b := slice_bound n en in
  firstn (Z.to_nat (b - a)) (skipn (Z.to_nat a) l).

(** [np.cumsum] of a list of integers. *)
Fixpoint cumsum_from (acc : Z) (l : list Z) : list Z :=
  match l with
  | [] => []
  | x :: l' => (acc + x) :: cumsum_from (acc + x) l'
  end.

Definition cumsum (l : list Z) : list Z := cumsum_from 0 l.

(** [np.split(arr, indices)] along axis 0 (through [array_split]):
    [div_points = [0] + list(indices) + [Ntotal]] and one sub-array
    [arr[div_points[i]:div_points[i+1]]] per consecutive pair. *)
Fixpoint slices {A} (l : list A) (div_points : list Z) : list (list A) :=
  match div_points with
  | st :: rest =>
      match rest with
      | en :: _ => py_slice l st en :: slices l rest
      | [] => []
      end
  | [] => []
  end.

Definition split (arr : Array2) (indices : list Z) : list Array2 :=
  let div_points := 0 :: indices ++ [Z.of_nat (nrows arr)] in
  map (mkArray2 (ncols arr)) (slices (rows arr) div_points).

(** [sig[:, 0]] *)
Definition column0 (sig : Array2) : outcome (list R) :=
  match ncols sig with
  | O => Raise IndexError
  | S _ => Ok (map (fun r => hd 0%R r) (rows sig))
  end.

Definition max_list (r : list R) : R :=
  match r with
  | [] => 0%R
  | x :: r' => fold_left Rmax r' x
  end.

(** [np.max] of a one-dimensional array, as the test pipeline passes it
    for [agg_func]; a zero-size array has no maximum. *)
Definition max (l : list R) : outcome R :=
  match l with
  | [] => Raise ValueError
  | _ => Ok (max_list l)
  end.

(** [np.max(arr, axis=1, keepdims=True)]: one maximum per row; a
    reduction over an axis of size zero raises. *)
Definition max_axis1 (arr : Array2) : outcome (list R) :=
  match ncols arr with
  | O => Raise ValueError
  | S _ => Ok (map max_list (rows arr))
  end.

(** [np.sum(arr, axis=1, keepdims=True)] *)
Definition sum_axis1 (arr : Array2) : list R := map sum (rows arr).

(** [np.exp(arr)] *)
Definition exp (arr : Array2) : Array2 :=
  mkArray2 (ncols arr) (map (map Rtrigo_def.exp) (rows arr)).

(** [arr op col] where [col] has shape [(nrows, 1)] and is broadcast
    along the columns. *)
Definition broadcast_cols (op : R -> R -> R) (arr : Array2) (col : list R)
  : Array2 :=
  mkArray2 (ncols arr)
           (map (fun '(r, c) => map (fun x => op x c) r)
                (combine (rows arr) col)).

End Np.

(** ** Values of the configuration dictionaries and keyword arguments *)

(** A dictionary key need not be a string in Python. *)
Inductive pykey : Type :=
  | KStr (s : string)
  | KInt (z : Z)
  | KBool (b : bool).

#[warnings="-register-all"]
Inductive pyval : Type :=
  | VInt (z : Z)
  | VBool (b : bool)
  | VStr (s : string)
  | VList (l : list pyval)
  | VDict (d : list (pykey * pyval))
  | VNamed (name : string)          (* [C('name')]: a grid parameter *)
  | VCallable                       (* [F(lambda ...)] *)
  | VConfigProto (allow_soft_placement : bool).

Definition key_is_str (k : pykey) : bool :=
  match k with KStr _ => true | _ => false end.

(** A dictionary literal, in source order. *)
Definition keys (d : list (pykey * pyval)) : list pykey := map fst d.

(** The keys of a value's nested dictionaries, at every depth. *)
Fixpoint nested_keys_are_str (v : pyval) : bool :=
  match v with
  | VDict d =>
      forallb (fun '(k, v') => key_is_str k && nested_keys_are_str v') d
  | VList l => forallb nested_keys_are_str l
  | _ => true
  end.

(** ** The notebook *)

Module Notebook.
Import Constants.

(** *** Cell 24: dataset paths *)

Fixpoint endswith_sep (s : string) : bool :=
  match s with
  | EmptyString => false
  | String c EmptyString => Ascii.eqb c "/"%char
  | String _ s' => endswith_sep s'
  end.

Definition startswith_sep (s : string) : bool :=
  match s with
  | String c _ => Ascii.eqb c "/"%char
  | EmptyString => false
  end.

(** [os.path.join(a, b)] on a POSIX system. *)
Definition os_path_join (a b : string) : string :=
  if startswith_sep b then b
  else if (match a with EmptyString => true | _ => false end)
          || endswith_sep a
       then a +:+ b
       else a +:+ "/" +:+ b.

(** [glob.has_magic]: the characters that make a path a pattern. *)
Fixpoint has_magic (s : string) : bool :=
  match s with
  | EmptyString => false
  | String c s' =>
      Ascii.eqb c "*" || Ascii.eqb c "?" || Ascii.eqb c "[" || has_magic s'
  end.

Definition PATH : string := "/notebooks/data/ECG/training2017".
Definition signals_pattern : string := "A*.hea".
Definition labels_file : string := "REFERENCE.csv".

(** The notebook asks the reader to change [PATH]; the two derived paths
    are functions of it. *)
Definition SIGNALS_MASK (PATH : string) : string :=
  os_path_join PATH signals_pattern.
Definition LABELS_PATH (PATH : string) : string :=
  os_path_join PATH labels_file.

(** *** Cell 28: model configuration *)

Definition model_config : list (pykey * pyval) :=
  [ (KStr "inputs",
     VDict [ (KStr "signals", VDict [ (KStr "shape", VCallable) ]);
             (KStr "labels",
              VDict [ (KStr "classes", VList [VStr "A"; VStr "NO"]);
                      (KStr "transform", VStr "ohe");
                      (KStr "name", VStr "targets") ]) ]);
    (KStr "initial_block/inputs", VStr "signals");
    (KStr "loss", VStr "ce");
    (KStr "input_block/filters", VNamed "input_filters");
    (KStr "body/block/layout", VNamed "layout");
    (KStr "body/filters", VNamed "filters");
    (KStr "body/num_blocks", VNamed "blocks");
    (KStr "session/config", VConfigProto true);
    (KStr "device", VNamed "device");
    (KStr "optimizer", VStr "Adam") ].

(** *** Cell 35: [center_flip] *)

Definition center_flip (draw : bool) (signal : list R) : M (list R) :=
  let sign := Np.random_choice_sign draw in
  let* mean := lib (Np.mean signal) in
  ret (map (fun x => (sign * (x - mean))%R) signal).

(** *** Cell 38: [make_data] *)

Record Batch (Seg Lab : Type) : Type :=
  mkBatch { signal : list (list Seg); target : list Lab }.
Arguments mkBatch {Seg Lab} signal target.
Arguments signal {Seg Lab} b.
Arguments target {Seg Lab} b.

Inductive feed_value (Seg Lab : Type) : Type :=
  | Signals (a : list Seg)
  | Labels (a : list Lab).
Arguments Signals {Seg Lab} a.
Arguments Labels {Seg Lab} a.

(** A signal is one array whose first axis runs over its crops
    (segments): [signal.shape[0]] is their number and [crop_shape signal]
    stands for [signal.shape[1:]], the shape its crops share. *)
Class Cropped (Seg : Type) : Type := crop_shape : list Seg -> list nat.

(** Each segment reaches [np.array] as an array of its signal's crop
    shape; [np.array] stacks the segments if they all have one shape and
    raises otherwise. *)
Definition make_data {Seg Lab} `{Cropped Seg} (batch : Batch Seg Lab)
  : M (gmap string (gmap string (feed_value Seg Lab))) :=
  let* n_reps :=
    comprehension (fun signal => ret (length signal)) (signal batch) in
  let* per_signal :=
    comprehension
      (fun signal =>
         comprehension (fun segment => ret (crop_shape signal, segment))
                       signal)
      (signal batch) in
  let* signals := lib (Np.array (concat per_signal)) in
  let* targets := lib (Np.repeat (target batch) n_reps) in
  ret {[ "feed_dict" :=
           {[ "signals" := Signals signals; "labels" := Labels targets ]} ]}.

(** *** Cell 41: [aggregate_crops]

    [arr -= ...] writes into the array object the caller passed in; the
    later [arr = ...] assignments rebind the local name only.  [splits]
    holds row counts, which [np.cumsum] flattens and adds up; they are far
    below the range of its 64-bit accumulator, so the sums are taken in
    [Z].  The notebook passes [predictions] explicitly at both call
    sites.  [agg_func] returns one number per block ([np.mean], [np.max]);
    [B] is the type of these numbers, which the closing [np.array]
    gathers into a one-dimensional array. *)

Definition aggregate_crops {B} (arr : Array2) (splits : list Z)
    (agg_func : list R -> outcome B) (predictions : bool) : M (list B) :=
  let* arr :=
    if_then predictions
      (let* row_max := lib (Np.max_axis1 arr) in
       let arr := Np.broadcast_cols Rminus arr row_max in
       let* _ := emit (InPlace arr) in
       let arr_exp := Np.exp arr in
       ret (Np.broadcast_cols Rdiv arr_exp (Np.sum_axis1 arr_exp)))
      (ret arr) in
  let arr := Np.split arr (Np.py_slice (Np.cumsum splits) 0 (-1)) in
  comprehension
    (fun sig => let* column := lib (Np.column0 sig) in lib (agg_func column))
    arr.

(** *** Cell 45: how often the test pipeline runs

    [ITERATIONS], [TEST_EXEC_FOR] and [STR_EXEC] are in [Constants]. *)

(** *** Cell 49: functions run by the research at the end of a pipeline *)

Section Library.

(** The objects of the external [batchflow] library and the methods the
    two functions call on them. *)
Variables Pipeline Model Metrics Score : Type.
Variable get_model_by_name : Pipeline -> string -> outcome Model.
Variable get_number_of_trainable_vars : Model -> outcome Z.
Variable get_variable : Pipeline -> string -> outcome Metrics.
Variable evaluate : Metrics -> string -> outcome Score.

Record ExecutableUnit : Type := mkUnit { pipeline : Pipeline }.

(** [experiment[ppl]] *)
Definition getitem (experiment : gmap string ExecutableUnit) (ppl : string)
  : outcome ExecutableUnit :=
  match experiment !! ppl with
  | Some u => Ok u
  | None => Raise KeyError
  end.

Definition get_trainable_variables (iteration : Z)
    (experiment : gmap string ExecutableUnit) (ppl : string)
    (model_name : option string) : M Z :=
  let model_name := default "model" model_name in
  let* unit := lib (getitem experiment ppl) in
  let* model := lib (get_model_by_name (pipeline unit) model_name) in
  lib (get_number_of_trainable_vars model).

Definition calc_metrics (iteration : Z)
    (experiment : gmap string ExecutableUnit) (ppl var_name : string)
  : M Score :=
  let* unit := lib (getitem experiment ppl) in
  let* metrics := lib (get_variable (pipeline unit) var_name) in
  let* f1 := lib (evaluate metrics "f1_score") in
  ret f1.

End Library.

(** *** Cells 51 and 52: the calls on the [Research] object

    Each call is recorded with its method name and keyword arguments (the
    positional pipeline and function objects are opaque library values). *)

Definition research_calls (TRAIN_SIZE : Z)
  : list (string * gmap string pyval) :=
  [ ("pipeline",
     {[ "variables" := VList [VStr "loss"];
        "name" := VStr "train";
        "dump" := VStr (STR_EXEC TRAIN_SIZE) ]});
    ("pipeline",
     {[ "name" := VStr "test";
        "execute" := VStr (STR_EXEC TRAIN_SIZE);
        "dump" := VStr (STR_EXEC TRAIN_SIZE);
        "import_from" := VStr "train";
        "run" := VBool true ]});
    ("function",
     {[ "returns" := VStr "metrics_f1";
        "name" := VStr "metrics_f1";
        "execute" := VStr (STR_EXEC TRAIN_SIZE);
        "dump" := VStr (STR_EXEC TRAIN_SIZE);
        "ppl" := VStr "test";
        "var_name" := VStr "metrics" ]});
    ("function",
     {[ "returns" := VStr "trainable_variables";
        "name" := VStr "trainable_variables";
        "execute" := VInt 1;
        "dump" := VInt 1;
        "ppl" := VStr "train" ]});
    ("grid", ∅);
    ("run",
     {[ "n_reps" := VInt N_REPS;
        "n_iters" := VInt (ITERATIONS TRAIN_SIZE);
        "workers" := VInt N_WORKERS;
        "gpu" := VList (map VInt GPU);
        "branches" := VInt N_BRANCHES;
        "name" := VStr "ResNet_research";
        "progress_bar" := VBool true ]}) ].

Definition is_run (call : string * gmap string pyval) : bool :=
  String.eqb (fst call) "run".

End Notebook.

(** ** Notions used to state the properties

    These follow the wording of the properties, not the code. *)

Definition zsum (l : list Z) : Z := fold_right Z.add 0 l.

(** The consecutive blocks of [sizes[0]], [sizes[1]], ... entries of [l]. *)
Fixpoint consecutive_blocks {A} (sizes : list nat) (l : list A)
  : list (list A) :=
  match sizes with
  | [] => []
  | n :: sizes' => firstn n l :: consecutive_blocks sizes' (skipn n l)
  end.

(** Column [j] of a block of rows. *)
Definition column (j : nat) (block : list (list R)) : list R :=
  map (fun r => nth j r 0%R) block.

(** The first entry of [l] on which [f] raises, raises [e]; [f] returns
    on every entry before it. *)
Definition first_failure {A B} (f : A -> outcome B) (l : list A) (e : exn)
  : Prop :=
  exists before x after,
    l = before ++ x :: after
    /\ Forall (fun y => exists b, f y = Ok b) before
    /\ f x = Raise e.

(** The two operations applied to one block: take column 0, aggregate. *)
Definition crop_outcome {B} (agg_func : list R -> outcome B) (sig : Array2)
  : outcome B :=
  match Np.column0 sig with
  | Ok column => agg_func column
  | Raise e => Raise e
  end.

(** Each row minus its maximum. *)
Definition shifted (arr : Array2) : Array2 :=
  mkArray2 (ncols arr)
           (map (fun r => map (fun x => (x - Np.max_list r)%R) r) (rows arr)).

(** The softmax of a row: [exp(x_j) / (exp(x_0) + ... + exp(x_n))]. *)
Definition softmax_row (r : list R) : list R :=
  map (fun x => (Rtrigo_def.exp x / Np.sum (map Rtrigo_def.exp r))%R) r.

Definition softmax (arr : Array2) : Array2 :=
  mkArray2 (ncols arr) (map softmax_row (rows arr)).

(** The array that [aggregate_crops] splits. *)
Definition staged (arr : Array2) (predictions : bool) : Array2 :=
  if predictions then softmax arr else arr.

(** A function on arrays that hands on the numbers it is given: every
    entry of its output is an entry of its input. *)
Definition passes_values_through (f : list R -> M (list R)) : Prop :=
  forall input out,
    result (f input) = Ok out -> forall x, In x out -> In x input.

(** The shapes of the crops of a batch, one entry per crop. *)
Definition crop_shapes {Seg} `{Notebook.Cropped Seg}
    (signals : list (list Seg)) : list (list nat) :=
  flat_map (fun sg => List.repeat (Notebook.crop_shape sg) (length sg))
           signals.

(** The crops of a batch as arrays: each with the shape of its signal's
    crops. *)
Definition shaped_crops {Seg} `{Notebook.Cropped Seg}
    (signals : list (list Seg)) : list (list nat * Seg) :=
  flat_map (fun sg => map (fun seg => (Notebook.crop_shape sg, seg)) sg)
           signals.

(** All the shapes of a list are the same. *)
Definition one_shape (shapes : list (list nat)) : Prop :=
  forall a b, In a shapes -> In b shapes -> a = b.

(** ** Sample inputs *)

Module Samples.

(** Crops that are single numbers: a signal of shape [(n,)]. *)
#[global]
Instance scalar_crops : Notebook.Cropped nat := fun _ => [].

(** Crops that are one-dimensional arrays, as long as the first one. *)
#[global]
Instance row_crops : Notebook.Cropped (list R) :=
  fun sg => match sg with
            | [] => [0%nat]
            | seg :: _ => [length seg]
            end.

Definition batch : Notebook.Batch nat string :=
  Notebook.mkBatch [[10%nat; 11%nat]; [20%nat]] ["A"; "NO"].

(** Three crops, two classes; the first signal has two crops. *)
Definition arr : Array2 :=
  mkArray2 2 [[1; 0]; [0; 1]; [1; 0]]%R.

Definition splits : list Z := [2; 1].



(** Two signals of one crop each, the crops of different length. *)
Definition ragged_batch : Notebook.Batch (list R) string :=
  Notebook.mkBatch [[[1; 2; 3]]; [[4; 5]]]%R ["A"; "NO"].

End Samples.

(** ** The test pipeline's use of the helpers (cell 42) *)

Module TestPipeline.
Import Notebook.

(** [np.mean] called from plain Python, as the test pipeline passes it for
    [agg_func]: the mean of a zero-size array is NaN ([None]) with a
    warning, not an exception. *)
Definition np_mean (l : list R) : outcome (option R) :=
  Ok (match l with
      | [] => None
      | _ => Some (Np.sum l / INR (length l))%R
      end).

(** [lambda x: [x.shape[0]]], which [apply_transform] applies to each
    signal of the batch to fill the component [splits]. *)
Definition splits_of {Seg} (x : list Seg) : list Z := [Z.of_nat (length x)].

Definition splits_component {Seg Lab} (batch : Batch Seg Lab)
  : list (list Z) :=
  map splits_of (signal batch).

(** The two [apply_transform_all] steps.  [np.cumsum] flattens the
    component [splits] before adding up. *)
Definition aggregate_predictions (predictions : Array2)
    (splits : list (list Z)) : M (list (option R)) :=
  aggregate_crops predictions (concat splits) np_mean true.

Definition aggregate_targets (targets : Array2) (splits : list (list Z))
  : M (list R) :=
  aggregate_crops targets (concat splits) Np.max false.

End TestPipeline.

(** ** Further notions used to state properties *)

(** The least number of batches of [b] items that hold [a] items. *)
Definition ceil_div (a b : Z) : Z := (a + b - 1) / b.

Fixpoint contains_sep (s : string) : bool :=
  match s with
  | EmptyString => false
  | String c s' => Ascii.eqb c "/" || contains_sep s'
  end.

(** The part of a path after its last separator ([os.path.basename]). *)
Fixpoint basename (s : string) : string :=
  match s with
  | EmptyString => EmptyString
  | String c s' =>
      if contains_sep s' then basename s'
      else if Ascii.eqb c "/" then s' else s
  end.

(** One constant added to every entry of each row. *)
Definition add_to_rows (arr : Array2) (offsets : list R) : Array2 :=
  Np.broadcast_cols Rplus arr offsets.

Module MoreSamples.

(** Two signals with two and one crop, labelled by one-hot rows. *)
Definition labelled_batch : Notebook.Batch nat (list R) :=
  Notebook.mkBatch [[10%nat; 11%nat]; [20%nat]] [[1; 0]; [0; 1]]%R.

Definition logits : Array2 := mkArray2 2 [[0; 0]; [1; 0]; [0; 2]]%R.

End MoreSamples.

(** * Properties *)

(** ** Decimal numerals printed by [pretty] *)

Section DecimalFacts.
Import Decimal.

Lemma digit_value_pretty_char (d : N) :
  (d < 10)%N -> digit_value (pretty_N_char d) = Some (Z.of_N d).
Proof.
  intros Hd.
  destruct d as [|p]; [reflexivity|].
  do 4 (destruct p as [p|p|]; try reflexivity; try lia).
Qed.

Lemma pretty_char_zero (d : N) :
  (d < 10)%N -> pretty_N_char d = "0"%char -> d = 0%N.
Proof.
  intros Hd H. apply (pretty_N_char_inj d 0); [lia | lia | exact H].
Qed.

Lemma append_cons (c : ascii) (s t : string) :
  String c s +:+ t = String c (s +:+ t).
Proof. reflexivity. Qed.

Lemma append_empty_r (s : string) : s +:+ EmptyString = s.
Proof. induction s as [|c s IH]; [reflexivity|]. by rewrite append_cons, IH. Qed.

Lemma append_snoc (ds : string) (c : ascii) (s : string) :
  ds +:+ String c s = (ds +:+ String c EmptyString) +:+ s.
Proof.
  induction ds as [|d ds IH]; [reflexivity|]. by rewrite !append_cons, IH.
Qed.

Lemma length_snoc (ds : string) (c : ascii) :
  String.length (ds +:+ String c EmptyString) = S (String.length ds).
Proof.
  induction ds as [|d ds IH]; [reflexivity|].
  rewrite append_cons. simpl. by rewrite IH.
Qed.

Lemma horner_app (ds rest : string) :
  forall acc v, horner acc ds = Some v ->
                horner acc (ds +:+ rest) = horner v rest.
Proof.
  induction ds as [|c ds IH]; intros acc v H.
  - injection H as ->. reflexivity.
  - rewrite append_cons. simpl in *.
    destruct (digit_value c); [auto | discriminate].
Qed.

(** The digits produced for [x], in front of the suffix [s]. *)
Lemma pretty_N_go_digits (x : N) :
  forall s, exists ds,
    pretty_N_go x s = ds +:+ s
    /\ (forall acc, exists v,
          horner acc ds = Some v
          /\ v = acc * 10 ^ Z.of_nat (String.length ds) + Z.of_N x)
    /\ (x = 0%N -> ds = EmptyString)
    /\ ((0 < x)%N -> exists c ds', ds = String c ds' /\ c <> "0"%char).
Proof.
  induction x as [x IH] using (well_founded_induction N.lt_wf_0).
  intros s.
  destruct (decide (0 < x)%N) as [Hpos|Hz].
  - rewrite pretty_N_go_step by exact Hpos.
    set (c := pretty_N_char (x `mod` 10)).
    assert (Hlt : (x `div` 10 < x)%N) by (apply N.div_lt; lia).
    assert (Hmod : (x `mod` 10 < 10)%N) by (apply N.mod_lt; lia).
    destruct (IH _ Hlt (String c s)) as (ds0 & Heq & Hval & Hzero & Hfirst).
    exists (ds0 +:+ String c EmptyString). repeat split.
    + rewrite Heq. apply append_snoc.
    + intros acc. destruct (Hval acc) as (v & Hv & Hveq).
      eexists. split.
      * rewrite (horner_app _ _ _ _ Hv). simpl.
        unfold c. rewrite digit_value_pretty_char by exact Hmod. reflexivity.
      * subst v.
        rewrite length_snoc, Nat2Z.inj_succ, Z.pow_succ_r by lia.
        rewrite (N.div_mod x 10) at 3 by lia.
        rewrite N2Z.inj_add, N2Z.inj_mul. simpl Z.of_N at 3. lia.
    + intros ->. discriminate.
    + intros _. destruct (decide (0 < x `div` 10)%N) as [Hq|Hq].
      * destruct (Hfirst Hq) as (c0 & ds' & -> & Hc0).
        exists c0, (ds' +:+ String c EmptyString). split; [reflexivity | exact Hc0].
      * assert (Hq0 : (x `div` 10 = 0)%N)
          by (apply N.le_0_r, N.nlt_ge; exact Hq).
        rewrite (Hzero Hq0). exists c, EmptyString. split; [reflexivity|].
        intros Hc. apply pretty_char_zero in Hc; [|exact Hmod].
        pose proof (N.div_mod x 10 ltac:(discriminate)) as Hx.
        rewrite Hq0, Hc in Hx. rewrite Hx in Hpos. discriminate.
  - assert (x = 0%N) by lia. subst x. rewrite pretty_N_go_0.
    exists EmptyString. repeat split.
    + intros acc. exists acc. split; [reflexivity|]. simpl. lia.
    + lia.
Qed.

(** [pretty] prints the decimal representation of a non-negative integer. *)
Lemma value_pretty (n : Z) : 0 <= n -> value (pretty n) = Some n.
Proof.
  intros Hn. destruct n as [|p|p]; [reflexivity | | lia].
  change (pretty (Z.pos p)) with (pretty_N_go (N.pos p) EmptyString).
  destruct (pretty_N_go_digits (N.pos p) EmptyString)
    as (ds & Heq & Hval & _ & Hfirst).
  rewrite Heq.
  rewrite append_empty_r.
  destruct (Hval 0) as (v & Hv & Hveq).
  destruct (Hfirst eq_refl) as (c & ds' & -> & Hc).
  assert (Hv' : horner 0 (String c ds') = Some (Z.pos p)).
  { rewrite Hv. f_equal. subst v. simpl Z.of_N. lia. }
  unfold value. destruct ds' as [|c' ds''].
  - simpl in Hv'. destruct (digit_value c); [|discriminate].
    rewrite <- Hv'. reflexivity.
  - destruct (Ascii.eqb_spec c "0"%char) as [->|_]; [by destruct Hc|].
    exact Hv'.
Qed.

End DecimalFacts.

(** ** The execution frequency (cell 45) *)

Section Frequency.
Import Constants Notebook.

Lemma ITERATIONS_div_EPOCHS (TRAIN_SIZE : Z) :
  ITERATIONS TRAIN_SIZE / EPOCHS = TRAIN_SIZE / BATCH_SIZE + 1.
Proof. unfold ITERATIONS, EPOCHS. apply Z.div_mul. discriminate. Qed.

Lemma TEST_EXEC_FOR_closed (TRAIN_SIZE : Z) :
  TEST_EXEC_FOR TRAIN_SIZE = (TRAIN_SIZE / BATCH_SIZE + 1) * TEST_EACH_EPOCH.
Proof. unfold TEST_EXEC_FOR. by rewrite ITERATIONS_div_EPOCHS. Qed.

Lemma TEST_EXEC_FOR_pos (TRAIN_SIZE : Z) :
  0 <= TRAIN_SIZE -> 0 < TEST_EXEC_FOR TRAIN_SIZE.
Proof.
  intros H. rewrite TEST_EXEC_FOR_closed. unfold BATCH_SIZE, TEST_EACH_EPOCH.
  pose proof (Z.div_pos TRAIN_SIZE 32 H ltac:(lia)). lia.
Qed.

Lemma format_percent_inj (m n : Z) :
  format_percent m = format_percent n -> m = n.
Proof.
  unfold format_percent. intros H.
  apply (inj pretty). by apply (inj (String.append "%")) in H.
Qed.

(** The string-valued [execute] and [dump] keyword arguments of the calls
    on the [Research] object. *)
Lemma research_calls_frequency (TRAIN_SIZE : Z) method kwargs key s :
  In (method, kwargs) (research_calls TRAIN_SIZE) ->
  key = "execute" \/ key = "dump" ->
  kwargs !! key = Some (VStr s) ->
  s = STR_EXEC TRAIN_SIZE.
Proof.
  intros Hin Hkey Hlook. unfold research_calls in Hin. simpl in Hin.
  destruct Hkey; subst key;
    repeat (destruct Hin as [Hin|Hin];
            [injection Hin as <- <-; simplify_map_eq; done|]);
    destruct Hin.
Qed.

(** C1: for every positive TRAIN_SIZE the frequency string is the percent
    sign followed by the decimal representation of the positive integer
    TEST_EXEC_FOR = ((TRAIN_SIZE // BATCH_SIZE) + 1) * TEST_EACH_EPOCH; it
    is the string passed as execute/dump; and it is "%40" exactly when
    TRAIN_SIZE // BATCH_SIZE = 1. *)
Theorem STR_EXEC_shell_style (TRAIN_SIZE : Z) :
  0 < TRAIN_SIZE ->
  ITERATIONS TRAIN_SIZE = ((TRAIN_SIZE / BATCH_SIZE) + 1) * EPOCHS
  /\ TEST_EXEC_FOR TRAIN_SIZE
     = ITERATIONS TRAIN_SIZE / EPOCHS * TEST_EACH_EPOCH
  /\ TEST_EXEC_FOR TRAIN_SIZE
     = ((TRAIN_SIZE / BATCH_SIZE) + 1) * TEST_EACH_EPOCH
  /\ 0 < TEST_EXEC_FOR TRAIN_SIZE
  /\ (exists digits,
        STR_EXEC TRAIN_SIZE = String "%" digits
        /\ Decimal.value digits = Some (TEST_EXEC_FOR TRAIN_SIZE))
  /\ (STR_EXEC TRAIN_SIZE = "%40" <-> TRAIN_SIZE / BATCH_SIZE = 1)
  /\ (forall method kwargs key s,
        In (method, kwargs) (research_calls TRAIN_SIZE) ->
        key = "execute" \/ key = "dump" ->
        kwargs !! key = Some (VStr s) ->
        s = STR_EXEC TRAIN_SIZE).
Proof.
  intros Hpos.
  assert (H0 : 0 < TEST_EXEC_FOR TRAIN_SIZE) by (apply TEST_EXEC_FOR_pos; lia).
  split; [reflexivity|]. split; [reflexivity|].
  split; [apply TEST_EXEC_FOR_closed|]. split; [exact H0|].
  split; [|split].
  - exists (pretty (TEST_EXEC_FOR TRAIN_SIZE)). split; [reflexivity|].
    apply value_pretty. lia.
  - change "%40" with (format_percent 40). unfold STR_EXEC. split.
    + intros H. apply format_percent_inj in H.
      rewrite TEST_EXEC_FOR_closed in H.
      unfold TEST_EACH_EPOCH in H. lia.
    + intros H. f_equal. rewrite TEST_EXEC_FOR_closed, H. reflexivity.
  - apply research_calls_frequency.
Qed.

Lemma STR_EXEC_shell_style_witness :
  0 < 6822
  /\ TEST_EXEC_FOR 6822 = ((6822 / BATCH_SIZE) + 1) * TEST_EACH_EPOCH
  /\ 0 < TEST_EXEC_FOR 6822
  /\ (STR_EXEC 6822 = "%40" <-> 6822 / BATCH_SIZE = 1).
Proof.
  split; [reflexivity|].
  destruct (STR_EXEC_shell_style 6822) as (_ & _ & H & Hp & _ & H40 & _);
    [reflexivity|].
  split; [exact H|]. split; [exact Hp | exact H40].
Defined.

End Frequency.

Example STR_EXEC_63 : Constants.STR_EXEC 63 = "%40".
Proof. vm_compute. reflexivity. Qed.

Example STR_EXEC_6822 : Constants.STR_EXEC 6822 = "%4280".
Proof. vm_compute. reflexivity. Qed.

(** ** Paths, configuration and the call that launches the research *)

Section Glue.
Import Constants Notebook.

Lemma os_path_join_relative (a b : string) :
  startswith_sep b = false ->
  exists sep, (sep = EmptyString \/ sep = "/")
              /\ os_path_join a b = a +:+ sep +:+ b.
Proof.
  intros Hb. unfold os_path_join. rewrite Hb.
  destruct (_ || _).
  - exists EmptyString. split; [by left | reflexivity].
  - exists "/". split; [by right | reflexivity].
Qed.

(** C5: the signals mask is the data directory joined with a glob pattern
    that ends in ".hea"; the labels path is the data directory joined with
    exactly "REFERENCE.csv".  Both extend the directory by at most one
    separator and the file part. *)
Theorem dataset_path_convention (data_dir : string) :
  SIGNALS_MASK data_dir = os_path_join data_dir signals_pattern
  /\ has_magic signals_pattern = true
  /\ (exists stem, signals_pattern = stem +:+ ".hea")
  /\ LABELS_PATH data_dir = os_path_join data_dir "REFERENCE.csv"
  /\ (exists sep, (sep = EmptyString \/ sep = "/")
        /\ SIGNALS_MASK data_dir = data_dir +:+ sep +:+ signals_pattern
        /\ LABELS_PATH data_dir = data_dir +:+ sep +:+ "REFERENCE.csv")
  /\ SIGNALS_MASK PATH = "/notebooks/data/ECG/training2017/A*.hea"
  /\ LABELS_PATH PATH = "/notebooks/data/ECG/training2017/REFERENCE.csv".
Proof.
  split; [reflexivity|]. split; [reflexivity|].
  split; [by exists "A*" |]. split; [reflexivity|].
  split; [|split; reflexivity].
  unfold SIGNALS_MASK, LABELS_PATH, os_path_join. simpl startswith_sep.
  cbv iota. destruct (_ || _).
  - exists EmptyString. split; [by left | split; reflexivity].
  - exists "/". split; [by right | split; reflexivity].
Qed.

(** C6: there is one [run] call; it receives workers = N_WORKERS = 3,
    branches = N_BRANCHES = 2, gpu = GPU = [1..6], n_reps = N_REPS = 5 and
    n_iters = ITERATIONS; no other call on the research receives a
    parallelism setting, and the settings are the same constants whatever
    the size of the training set. *)
Theorem parallelism_passed_to_run (TRAIN_SIZE : Z) :
  exists kwargs,
    List.filter is_run (research_calls TRAIN_SIZE) = [("run", kwargs)]
    /\ kwargs !! "workers" = Some (VInt N_WORKERS) /\ N_WORKERS = 3
    /\ kwargs !! "branches" = Some (VInt N_BRANCHES) /\ N_BRANCHES = 2
    /\ kwargs !! "gpu" = Some (VList (map VInt GPU))
    /\ GPU = [1; 2; 3; 4; 5; 6]
    /\ kwargs !! "n_reps" = Some (VInt N_REPS) /\ N_REPS = 5
    /\ kwargs !! "n_iters" = Some (VInt (ITERATIONS TRAIN_SIZE))
    /\ (forall method kw key,
          In (method, kw) (research_calls TRAIN_SIZE) ->
          key = "workers" \/ key = "branches" \/ key = "gpu" ->
          is_Some (kw !! key) -> method = "run").
Proof.
  eexists. split; [reflexivity|].
  repeat (split; [by simplify_map_eq|]).
  intros method kw key Hin Hkey [v Hv]. unfold research_calls in Hin.
  simpl in Hin.
  destruct Hkey as [->|[->| ->]];
    repeat (destruct Hin as [Hin|Hin];
            [injection Hin as <- <-; simplify_map_eq; done|]);
    destruct Hin.
Qed.

(** C7: every key of the model configuration is a string, the keys are
    pairwise distinct, among them are the ones the specification lists,
    and the nested dictionaries are keyed by strings as well. *)
Theorem model_config_string_keyed :
  Forall (fun k => key_is_str k = true) (keys model_config)
  /\ NoDup (keys model_config)
  /\ Forall (fun k => In (KStr k) (keys model_config))
       [ "inputs"; "loss"; "input_block/filters"; "body/block/layout";
         "body/filters"; "body/num_blocks"; "session/config"; "device";
         "optimizer" ]
  /\ nested_keys_are_str (VDict model_config) = true.
Proof.
  split; [|split; [|split]].
  - repeat constructor.
  - unfold keys, model_config. simpl.
    repeat (apply NoDup_cons_2;
            [intros H;
             repeat (apply elem_of_cons in H as [H|H]; [discriminate|]);
             by apply elem_of_nil in H|]).
    apply NoDup_nil_2.
  - repeat (constructor; [simpl; auto 20|]). constructor.
  - reflexivity.
Qed.

End Glue.

(** ** Running code in [M] *)

Section MonadFacts.
Context {A B : Type}.

Lemma bind_lib_ok (a : A) (k : A -> M B) : bind (lib (Ok a)) k = k a.
Proof. unfold bind, lib. by destruct (k a). Qed.

Lemma bind_lib_raise (e : exn) (k : A -> M B) :
  bind (lib (Raise e)) k = ([], Raise e).
Proof. reflexivity. Qed.

Lemma bind_ret (a : A) (k : A -> M B) : bind (ret a) k = k a.
Proof. apply bind_lib_ok. Qed.

Lemma result_bind (m : M A) (k : A -> M B) :
  result (bind m k)
  = match result m with
    | Ok a => result (k a)
    | Raise e => Raise e
    end.
Proof.
  destruct m as [t [a|e]]; [|reflexivity].
  unfold bind, result. simpl. by destruct (k a).
Qed.

Lemma trace_bind (m : M A) (k : A -> M B) :
  trace (bind m k)
  = trace m ++ match result m with
               | Ok a => trace (k a)
               | Raise e => []
               end.
Proof.
  destruct m as [t [a|e]]; unfold bind, trace, result; simpl.
  - by destruct (k a).
  - by rewrite app_nil_r.
Qed.

End MonadFacts.

(** ** [center_flip] *)

Section CenterFlip.
Import Notebook.
Local Open Scope R_scope.

Lemma sum_map_shift (m : R) (l : list R) :
  Np.sum (map (fun x => x - m) l) = Np.sum l - INR (length l) * m.
Proof.
  induction l as [|x l IH].
  - simpl. ring.
  - change (length (x :: l)) with (S (length l)). rewrite S_INR.
    simpl. rewrite IH. ring.
Qed.

Lemma sum_map_scale (c : R) (l : list R) :
  Np.sum (map (fun x => c * x) l) = c * Np.sum l.
Proof.
  induction l as [|x l IH]; simpl.
  - ring.
  - rewrite IH. ring.
Qed.

Lemma mean_nonempty (l : list R) :
  l <> [] -> Np.mean l = Ok (Np.sum l / INR (length l)).
Proof. by destruct l. Qed.

Lemma INR_length_nonzero {T} (l : list T) : l <> [] -> INR (length l) <> 0.
Proof.
  intros H. apply not_0_INR. destruct l; [done | discriminate].
Qed.

Lemma Rabs_sign_mult (draw : bool) (y : R) :
  Rabs (Np.random_choice_sign draw * y) = Rabs y.
Proof.
  destruct draw; simpl.
  - f_equal. ring.
  - replace (-1 * y) with (- y) by ring. apply Rabs_Ropp.
Qed.

(** What [center_flip] computes on a signal that has a mean. *)
Lemma center_flip_nonempty (draw : bool) (signal : list R) :
  signal <> [] ->
  center_flip draw signal
  = ([], Ok (map (fun x => Np.random_choice_sign draw
                           * (x - Np.sum signal / INR (length signal)))
                 signal)).
Proof.
  intros H. unfold center_flip. rewrite (mean_nonempty _ H).
  by rewrite bind_lib_ok.
Qed.

Lemma mean_center_flip_output (s : R) (signal : list R) :
  signal <> [] ->
  Np.mean (map (fun x => s * (x - Np.sum signal / INR (length signal)))
               signal) = Ok 0.
Proof.
  intros H.
  rewrite mean_nonempty by (by destruct signal).
  f_equal.
  rewrite <- (map_map (fun x => x - Np.sum signal / INR (length signal))
                      (fun y => s * y)).
  rewrite sum_map_scale, sum_map_shift, !length_map.
  pose proof (INR_length_nonzero signal H). field. exact H0.
Qed.

(** C8 (as amended): for every non-empty signal and either outcome of the
    random sign choice, [center_flip] returns signal - mean(signal) or its
    negation (the first when the choice is 1, the second when it is -1);
    the mean of the returned array is zero and its elementwise absolute
    values are the same for both outcomes. *)
Theorem center_flip_centered (draw : bool) (signal : list R) :
  signal <> [] ->
  exists mean out,
    Np.mean signal = Ok mean
    /\ result (center_flip draw signal) = Ok out
    /\ out = (if draw
              then map (fun x => x - mean) signal
              else map (fun x => - (x - mean)) signal)
    /\ Np.mean out = Ok 0
    /\ (forall draw' out',
          result (center_flip draw' signal) = Ok out' ->
          map Rabs out' = map Rabs out).
Proof.
  intros H.
  exists (Np.sum signal / INR (length signal)).
  eexists. split; [by apply mean_nonempty|].
  rewrite center_flip_nonempty by exact H.
  split; [reflexivity|]. split; [|split].
  - destruct draw; apply map_ext; intros x; simpl; ring.
  - by apply mean_center_flip_output.
  - intros draw' out'. rewrite center_flip_nonempty by exact H.
    intros [= <-]. rewrite !map_map. apply map_ext. intros x.
    by rewrite !Rabs_sign_mult.
Qed.

Lemma center_flip_centered_witness :
  [1; 2; 6] <> []
  /\ exists mean out,
       Np.mean [1; 2; 6] = Ok mean
       /\ result (center_flip false [1; 2; 6]) = Ok out
       /\ out = map (fun x => - (x - mean)) [1; 2; 6]
       /\ Np.mean out = Ok 0
       /\ (forall draw' out',
             result (center_flip draw' [1; 2; 6]) = Ok out' ->
             map Rabs out' = map Rabs out).
Proof.
  split; [discriminate|].
  apply (center_flip_centered false [1; 2; 6]). discriminate.
Defined.

(** C8 as stated fails on the empty signal: there is no mean to subtract,
    the call raises, and the empty array has no mean that could be zero. *)
Lemma center_flip_empty_signal :
  (forall draw,
     ~ exists out, result (center_flip draw []) = Ok out
                   /\ Np.mean out = Ok 0)
  /\ (forall draw, result (center_flip draw []) = Raise ZeroDivisionError)
  /\ Np.mean [] <> Ok 0.
Proof.
  split; [|split].
  - intros draw (out & Hout & _). discriminate.
  - reflexivity.
  - discriminate.
Qed.

End CenterFlip.

(** ** List comprehensions *)

Section Comprehension.
Context {A B : Type}.

(** A comprehension whose body always returns. *)
Lemma comprehension_total (f : A -> M B) (tr : A -> list event) (g : A -> B)
    (l : list A) :
  (forall x, In x l -> f x = (tr x, Ok (g x))) ->
  comprehension f l = (flat_map (fun x => Iter :: tr x) l, Ok (map g l)).
Proof.
  induction l as [|x l IH]; intros Hf; [reflexivity|].
  simpl comprehension. rewrite (Hf x) by (by left).
  rewrite IH by (intros y Hy; apply Hf; by right).
  unfold bind, emit, ret. simpl. by rewrite app_nil_r.
Qed.

Lemma comprehension_ret (g : A -> B) (l : list A) :
  comprehension (fun x => ret (g x)) l
  = (List.repeat Iter (length l), Ok (map g l)).
Proof.
  rewrite (comprehension_total _ (fun _ => []) g) by reflexivity.
  f_equal. induction l as [|x l IH]; [reflexivity|]. simpl. by rewrite IH.
Qed.

End Comprehension.

(** ** [make_data] *)

Section StackingArrays.
Context {A : Type}.
Implicit Types (l : list (list nat * A)).

Lemma array_one_shape l :
  one_shape (map fst l) -> Np.array l = Ok (map snd l).
Proof.
  destruct l as [|[shape x] l']; [reflexivity|]. intros Hone.
  unfold Np.array.
  assert (Hall : forallb (fun item => bool_decide (fst item = shape)) l'
                 = true).
  { apply forallb_forall. intros item Hin. apply bool_decide_eq_true_2.
    apply Hone; [right; by apply in_map | by left]. }
  by rewrite Hall.
Qed.

Lemma array_not_one_shape l :
  ~ one_shape (map fst l) -> Np.array l = Raise ValueError.
Proof.
  destruct l as [|[shape x] l']; [intros H; destruct H; by intros a b []|].
  intros Hnot. unfold Np.array.
  destruct (forallb (fun item => bool_decide (fst item = shape)) l') eqn:Hall;
    [|reflexivity].
  destruct Hnot. rewrite forallb_forall in Hall.
  assert (Hsame : forall a, In a (map fst ((shape, x) :: l')) -> a = shape).
  { intros a [<-|Hin]; [reflexivity|].
    apply in_map_iff in Hin as (item & <- & Hin).
    specialize (Hall item Hin). by apply bool_decide_eq_true_1 in Hall. }
  intros a b Ha Hb. by rewrite (Hsame a Ha), (Hsame b Hb).
Qed.

Lemma one_shape_dec (shapes : list (list nat)) :
  one_shape shapes \/ ~ one_shape shapes.
Proof.
  destruct shapes as [|shape shapes]; [left; by intros a b []|].
  destruct (decide (Forall (fun a => a = shape) shapes)) as [Hall|Hnot].
  - left. rewrite Forall_forall in Hall.
    assert (Hsame : forall a, In a (shape :: shapes) -> a = shape).
    { intros a [<-|Ha]; [reflexivity|]. by apply Hall, list_elem_of_In. }
    intros a b Ha Hb. by rewrite (Hsame a Ha), (Hsame b Hb).
  - right. intros Hone. apply Hnot, Forall_forall. intros a Ha.
    apply Hone; [right; by apply list_elem_of_In | by left].
Qed.

(** [np.array] raises only [ValueError], exactly when the arrays do not
    all have one shape. *)
Lemma array_raises l (e : exn) :
  Np.array l = Raise e <-> e = ValueError /\ ~ one_shape (map fst l).
Proof.
  destruct (one_shape_dec (map fst l)) as [Hone|Hnot].
  - rewrite (array_one_shape _ Hone). split; [discriminate|].
    by intros [_ H].
  - rewrite (array_not_one_shape _ Hnot). split.
    + by intros [= <-].
    + by intros [-> _].
Qed.

Lemma array_returns l (out : list A) :
  Np.array l = Ok out -> out = map snd l /\ one_shape (map fst l).
Proof.
  destruct (one_shape_dec (map fst l)) as [Hone|Hnot].
  - rewrite (array_one_shape _ Hone). by intros [= <-].
  - by rewrite (array_not_one_shape _ Hnot).
Qed.

End StackingArrays.

Section MakeData.
Import Notebook.
Context {Seg Lab : Type} `{!Cropped Seg}.

Lemma shaped_crops_parts (signals : list (list Seg)) :
  map fst (shaped_crops signals) = crop_shapes signals
  /\ map snd (shaped_crops signals) = concat signals.
Proof.
  unfold shaped_crops, crop_shapes.
  induction signals as [|sg signals [IH1 IH2]]; [by split|].
  simpl. rewrite !map_app, IH1, IH2, !map_map. split; f_equal.
  - generalize (crop_shape sg). intros shape. clear.
    induction sg as [|seg sg IH]; [reflexivity|]. simpl. f_equal. exact IH.
  - simpl. apply map_id.
Qed.

(** The segments stack when the crops of the batch have one shape. *)
Lemma array_shaped_crops (signals : list (list Seg)) :
  one_shape (crop_shapes signals) ->
  Np.array (shaped_crops signals) = Ok (concat signals).
Proof.
  intros Hone. destruct (shaped_crops_parts signals) as [Hfst Hsnd].
  rewrite array_one_shape by (by rewrite Hfst). by rewrite Hsnd.
Qed.

(** The labels, one per segment: the label of a signal repeated once for
    each of its segments. *)
Lemma repeat_per_signal (signals : list (list Seg)) (targets : list Lab) :
  length targets = length signals ->
  Np.repeat targets (map length signals)
  = Ok (flat_map (fun '(sig, t) => List.repeat t (length sig))
                 (combine signals targets)).
Proof.
  intros Hlen. unfold Np.repeat.
  assert (Hgen : forall (ss : list (list Seg)) (ts : list Lab),
             flat_map (fun '(x, n) => List.repeat x n)
                      (combine ts (map length ss))
             = flat_map (fun '(sig, t) => List.repeat t (length sig))
                        (combine ss ts)).
  { induction ss as [|sg ss IH]; intros [|t ts]; simpl; try reflexivity.
    by rewrite IH. }
  destruct signals as [|s1 [|s2 signals]].
  - destruct targets; [reflexivity | discriminate].
  - destruct targets as [|t [|t' targets]]; try discriminate.
    simpl. reflexivity.
  - rewrite length_map, Hlen, Nat.eqb_refl.
    change (length s1 :: length s2 :: map length signals)
      with (map length (s1 :: s2 :: signals)).
    by rewrite Hgen.
Qed.

Lemma combine_segments_labels (signals : list (list Seg))
    (targets : list Lab) :
  combine (concat signals)
          (flat_map (fun '(sig, t) => List.repeat t (length sig))
                    (combine signals targets))
  = flat_map (fun '(sig, t) => map (fun seg => (seg, t)) sig)
             (combine signals targets).
Proof.
  revert targets.
  induction signals as [|sg signals IH]; intros [|t targets]; simpl;
    try reflexivity.
  - by destruct (_ ++ _).
  - rewrite <- IH. clear IH.
    induction sg as [|seg sg IHsg]; simpl; [reflexivity|]. by rewrite IHsg.
Qed.

Lemma length_labels (signals : list (list Seg)) (targets : list Lab) :
  length targets = length signals ->
  length (flat_map (fun '(sig, t) => List.repeat t (length sig))
                   (combine signals targets))
  = list_sum (map length signals).
Proof.
  revert targets.
  induction signals as [|sg signals IH]; intros [|t targets] Hlen;
    try discriminate; [reflexivity|].
  simpl. rewrite length_app, repeat_length, IH; [reflexivity|].
  by injection Hlen.
Qed.

Lemma length_concat_sum (signals : list (list Seg)) :
  length (concat signals) = list_sum (map length signals).
Proof.
  induction signals as [|sg signals IH]; [reflexivity|].
  simpl. by rewrite length_app, IH.
Qed.

(** The run of [make_data]: three loops over the batch, then the two
    calls that can raise. *)
Lemma make_data_run (batch : Batch Seg Lab) :
  make_data batch
  = (List.repeat Iter (length (signal batch))
     ++ flat_map (fun sg => Iter :: List.repeat Iter (length sg))
                 (signal batch),
     match Np.array (shaped_crops (signal batch)) with
     | Ok signals =>
         match Np.repeat (target batch) (map length (signal batch)) with
         | Ok targets =>
             Ok {[ "feed_dict" :=
                     {[ "signals" := Signals signals;
                        "labels" := Labels targets ]} ]}
         | Raise e => Raise e
         end
     | Raise e => Raise e
     end).
Proof.
  unfold make_data.
  rewrite comprehension_ret.
  rewrite (comprehension_total _ (fun sg => List.repeat Iter (length sg))
             (fun sg => map (fun seg => (crop_shape sg, seg)) sg))
    by (intros; apply comprehension_ret).
  unfold bind at 1 2. cbv beta iota.
  rewrite <- flat_map_concat_map. fold (shaped_crops (signal batch)).
  unfold bind, lib, ret.
  destruct (Np.array _); [|by rewrite app_nil_r].
  destruct (Np.repeat _ _); by rewrite !app_nil_r.
Qed.

(** The run on a batch whose crops have one shape. *)
Lemma make_data_run_one_shape (batch : Batch Seg Lab) :
  one_shape (crop_shapes (signal batch)) ->
  result (make_data batch)
  = match Np.repeat (target batch) (map length (signal batch)) with
    | Ok targets =>
        Ok {[ "feed_dict" :=
                {[ "signals" := Signals (concat (signal batch));
                   "labels" := Labels targets ]} ]}
    | Raise e => Raise e
    end.
Proof.
  intros Hone. rewrite make_data_run. unfold result. simpl snd.
  by rewrite array_shaped_crops.
Qed.

(** C9 (as amended): when the crops of the batch all have one shape and
    there is one label per signal, [make_data] returns a feed_dict whose
    signals array has as many entries as the signals have segments in
    total, whose labels array has the same length, and in which every
    segment is paired with the label of the signal it came from, in signal
    order. *)
Theorem make_data_feed_dict (batch : Batch Seg Lab) :
  one_shape (crop_shapes (signal batch)) ->
  length (target batch) = length (signal batch) ->
  exists fd inner signals labels,
    result (make_data batch) = Ok fd
    /\ fd !! "feed_dict" = Some inner
    /\ inner !! "signals" = Some (Signals signals)
    /\ inner !! "labels" = Some (Labels labels)
    /\ signals = concat (signal batch)
    /\ length signals = list_sum (map length (signal batch))
    /\ length labels = length signals
    /\ labels = flat_map (fun '(sig, t) => List.repeat t (length sig))
                         (combine (signal batch) (target batch))
    /\ combine signals labels
       = flat_map (fun '(sig, t) => map (fun seg => (seg, t)) sig)
                  (combine (signal batch) (target batch)).
Proof.
  intros Hone Hlen.
  rewrite (make_data_run_one_shape _ Hone), (repeat_per_signal _ _ Hlen).
  do 4 eexists. split; [reflexivity|].
  split; [by simplify_map_eq|]. split; [by simplify_map_eq|].
  split; [by simplify_map_eq|].
  split; [reflexivity|]. split; [apply length_concat_sum|].
  split; [by rewrite length_labels, length_concat_sum|].
  split; [reflexivity | apply combine_segments_labels].
Qed.

End MakeData.

Lemma one_shape_same (shape : list nat) (shapes : list (list nat)) :
  Forall (fun a => a = shape) shapes -> one_shape shapes.
Proof.
  rewrite List.Forall_forall. intros Hall a b Ha Hb.
  by rewrite (Hall a Ha), (Hall b Hb).
Qed.

Lemma make_data_feed_dict_witness :
  one_shape (crop_shapes (Notebook.signal Samples.batch))
  /\ length (Notebook.target Samples.batch)
     = length (Notebook.signal Samples.batch)
  /\ exists fd inner signals labels,
       result (Notebook.make_data Samples.batch) = Ok fd
       /\ fd !! "feed_dict" = Some inner
       /\ inner !! "signals" = Some (Notebook.Signals signals)
       /\ inner !! "labels" = Some (Notebook.Labels labels)
       /\ signals = [10%nat; 11%nat; 20%nat]
       /\ labels = ["A"; "A"; "NO"].
Proof.
  assert (Hone : one_shape (crop_shapes (Notebook.signal Samples.batch)))
    by (apply (one_shape_same []); repeat constructor).
  split; [exact Hone|]. split; [reflexivity|].
  destruct (make_data_feed_dict Samples.batch Hone eq_refl)
    as (fd & inner & signals & labels & H1 & H2 & H3 & H4 & H5 & _ & _ & H8 & _).
  exists fd, inner, signals, labels. repeat split; assumption.
Defined.

(** C9 as stated fails: a batch of two signals with one label each, whose
    crops have three and two samples, has no feed_dict: [np.array] raises
    on the crops. *)
Lemma make_data_ragged_crops :
  length (Notebook.target Samples.ragged_batch)
  = length (Notebook.signal Samples.ragged_batch)
  /\ result (Notebook.make_data Samples.ragged_batch) = Raise ValueError
  /\ ~ exists fd, result (Notebook.make_data Samples.ragged_batch) = Ok fd.
Proof.
  assert (H : result (Notebook.make_data Samples.ragged_batch)
              = Raise ValueError) by reflexivity.
  split; [reflexivity|]. split; [exact H|].
  intros [fd Hfd]. rewrite H in Hfd. discriminate.
Qed.

(** ** Slicing and splitting *)

Section Splitting.
Context {A : Type}.

Lemma slice_bound_inside (n i : Z) : 0 <= i <= n -> Np.slice_bound n i = i.
Proof.
  intros H. unfold Np.slice_bound.
  destruct (Z.ltb_spec i 0); lia.
Qed.

Lemma py_slice_inside (l : list A) (st len : Z) :
  0 <= st -> 0 <= len -> st + len <= Z.of_nat (length l) ->
  Np.py_slice l st (st + len)
  = firstn (Z.to_nat len) (skipn (Z.to_nat st) l).
Proof.
  intros Hst Hlen Hle. unfold Np.py_slice.
  rewrite !slice_bound_inside by lia.
  do 2 f_equal. lia.
Qed.

(** [l[:-1]] drops the last entry. *)
Lemma py_slice_init (l : list A) : Np.py_slice l 0 (-1) = removelast l.
Proof.
  unfold Np.py_slice. rewrite removelast_firstn_len.
  unfold Np.slice_bound.
  change (-1 <? 0) with true. change (0 <? 0) with false. cbv iota.
  rewrite Z.min_l by lia. change (Z.to_nat 0) with 0%nat. rewrite skipn_O.
  f_equal. lia.
Qed.

Lemma slices_cumsum (l : list A) (sizes : list Z) :
  forall acc,
    Forall (fun s => 0 <= s) sizes ->
    0 <= acc ->
    acc + zsum sizes <= Z.of_nat (length l) ->
    Np.slices l (acc :: Np.cumsum_from acc sizes)
    = consecutive_blocks (map Z.to_nat sizes) (skipn (Z.to_nat acc) l).
Proof.
  induction sizes as [|s sizes IH]; intros acc Hpos Hacc Hsum;
    [reflexivity|].
  inversion Hpos as [|? ? Hs Hpos']; subst.
  simpl in Hsum.
  assert (Hz : 0 <= zsum sizes).
  { clear -Hpos'. induction Hpos'; simpl; lia. }
  change (Np.slices l (acc :: Np.cumsum_from acc (s :: sizes)))
    with (Np.py_slice l acc (acc + s)
          :: Np.slices l ((acc + s) :: Np.cumsum_from (acc + s) sizes)).
  rewrite IH by (try assumption; lia).
  rewrite py_slice_inside by lia.
  simpl. rewrite skipn_skipn. do 3 f_equal. lia.
Qed.

End Splitting.

Lemma cumsum_from_last (sizes : list Z) :
  forall acc,
    sizes <> [] ->
    removelast (Np.cumsum_from acc sizes) ++ [acc + zsum sizes]
    = Np.cumsum_from acc sizes.
Proof.
  induction sizes as [|s sizes IH]; intros acc Hne; [done|].
  destruct sizes as [|s' sizes].
  - simpl. do 2 f_equal. lia.
  - change (Np.cumsum_from acc (s :: s' :: sizes))
      with ((acc + s) :: Np.cumsum_from (acc + s) (s' :: sizes)).
    change (removelast ((acc + s) :: Np.cumsum_from (acc + s) (s' :: sizes)))
      with ((acc + s)
            :: removelast (Np.cumsum_from (acc + s) (s' :: sizes))).
    rewrite <- app_comm_cons. f_equal.
    rewrite <- (IH (acc + s)) at 2 by discriminate.
    do 2 f_equal. simpl. lia.
Qed.

Lemma consecutive_blocks_lengths {A} (sizes : list nat) (l : list A) :
  list_sum sizes = length l ->
  map length (consecutive_blocks sizes l) = sizes
  /\ concat (consecutive_blocks sizes l) = l.
Proof.
  revert l. induction sizes as [|n sizes IH]; intros l Hsum; simpl in *.
  - split; [reflexivity|]. by destruct l.
  - destruct (IH (skipn n l)) as [IH1 IH2].
    { rewrite length_skipn. lia. }
    rewrite IH1, IH2, firstn_skipn, length_firstn.
    split; [f_equal; lia | reflexivity].
Qed.

(** [np.split] at the running sums of the splits yields the consecutive
    blocks. *)
Lemma split_at_cumsum (arr : Array2) (splits : list Z) :
  splits <> [] ->
  Forall (fun s => 0 <= s) splits ->
  zsum splits = Z.of_nat (nrows arr) ->
  Np.split arr (Np.py_slice (Np.cumsum splits) 0 (-1))
  = map (mkArray2 (ncols arr))
        (consecutive_blocks (map Z.to_nat splits) (rows arr)).
Proof.
  intros Hne Hpos Hsum. unfold Np.split. f_equal.
  rewrite py_slice_init. unfold Np.cumsum.
  rewrite <- Hsum.
  change (zsum splits) with (0 + zsum splits) at 1.
  rewrite cumsum_from_last by exact Hne.
  rewrite slices_cumsum; [reflexivity | exact Hpos | lia |].
  unfold nrows in Hsum. lia.
Qed.

(** ** [aggregate_crops] *)

Section AggregateCrops.
Import Notebook.
Context {B : Type}.

Lemma list_sum_to_nat (sizes : list Z) :
  Forall (fun s => 0 <= s) sizes ->
  Z.of_nat (list_sum (map Z.to_nat sizes)) = zsum sizes.
Proof.
  induction 1 as [|s sizes Hs _ IH]; [reflexivity|].
  simpl. rewrite Nat2Z.inj_add, IH. lia.
Qed.

Lemma column0_column (n : nat) (block : list (list R)) :
  Np.column0 (mkArray2 (S n) block) = Ok (column 0 block).
Proof.
  unfold Np.column0, column. simpl. f_equal. apply map_ext.
  by intros [|x r].
Qed.

(** The run for labels ([predictions=False]): the branch is not taken, the
    array is split as it is. *)
Lemma aggregate_crops_labels_run (arr : Array2) (splits : list Z)
    (agg_func : list R -> outcome B) :
  aggregate_crops arr splits agg_func false
  = bind (emit (Branch false))
         (fun _ =>
            comprehension
              (fun sig => bind (lib (Np.column0 sig))
                               (fun column => lib (agg_func column)))
              (Np.split arr (Np.py_slice (Np.cumsum splits) 0 (-1)))).
Proof.
  unfold aggregate_crops, if_then.
  unfold bind at 1. unfold bind at 2. simpl emit. cbv iota beta.
  unfold ret at 1. cbv iota beta.
  unfold bind at 2. simpl. by destruct (comprehension _ _).
Qed.



End AggregateCrops.


(** ** The softmax written out in [aggregate_crops] *)

Section Softmax.
Local Open Scope R_scope.

Lemma broadcast_cols_map (op : R -> R -> R) (arr : Array2) (g : list R -> R) :
  Np.broadcast_cols op arr (map g (rows arr))
  = mkArray2 (ncols arr)
             (map (fun r => map (fun x => op x (g r)) r) (rows arr)).
Proof.
  unfold Np.broadcast_cols. f_equal.
  induction (rows arr) as [|r l IH]; [reflexivity|]. simpl. by rewrite IH.
Qed.

Lemma sum_exp_pos (r : list R) : r <> [] -> 0 < Np.sum (map exp r).
Proof.
  intros Hr. destruct r as [|x r]; [done|]. clear Hr. simpl.
  assert (H : 0 <= Np.sum (map exp r)).
  { induction r as [|y r IH]; simpl; [lra|].
    pose proof (exp_pos y). lra. }
  pose proof (exp_pos x). lra.
Qed.

Lemma sum_exp_shift (m : R) (r : list R) :
  Np.sum (map exp (map (fun x => x - m) r)) = exp (- m) * Np.sum (map exp r).
Proof.
  induction r as [|x r IH]; simpl.
  - ring.
  - rewrite IH. unfold Rminus. rewrite exp_plus. ring.
Qed.

(** Subtracting the row maximum before exponentiating does not change the
    quotient. *)
Lemma softmax_row_shift (m : R) (r : list R) :
  map (fun x => x / Np.sum (map exp (map (fun x => x - m) r)))
      (map exp (map (fun x => x - m) r))
  = softmax_row r.
Proof.
  unfold softmax_row. rewrite sum_exp_shift, !map_map.
  apply map_ext_in. intros x Hx.
  assert (Hr : r <> []) by (by destruct r).
  pose proof (sum_exp_pos r Hr). pose proof (exp_pos (- m)).
  unfold Rminus. rewrite exp_plus.
  field. split; lra.
Qed.

Lemma softmax_code (arr : Array2) :
  Np.broadcast_cols Rminus arr (map Np.max_list (rows arr)) = shifted arr
  /\ Np.broadcast_cols Rdiv (Np.exp (shifted arr))
                       (Np.sum_axis1 (Np.exp (shifted arr)))
     = softmax arr.
Proof.
  split; [apply broadcast_cols_map|].
  unfold Np.sum_axis1. rewrite broadcast_cols_map.
  unfold softmax, Np.exp, shifted. simpl. f_equal.
  rewrite !map_map. apply map_ext. intros r.
  apply (softmax_row_shift (Np.max_list r) r).
Qed.

Lemma sum_map_div (z : R) (l : list R) :
  Np.sum (map (fun x => x / z) l) = Np.sum l / z.
Proof.
  induction l as [|x l IH]; simpl.
  - unfold Rdiv. ring.
  - rewrite IH. unfold Rdiv. ring.
Qed.

(** The entries of a softmax row are positive and add up to one. *)
Lemma softmax_row_distribution (r : list R) :
  r <> [] ->
  Forall (fun p => 0 < p) (softmax_row r) /\ Np.sum (softmax_row r) = 1.
Proof.
  intros Hr. pose proof (sum_exp_pos r Hr) as Hz. split.
  - unfold softmax_row. apply Forall_map, Forall_forall. intros x _.
    simpl. apply Rdiv_lt_0_compat; [apply exp_pos | exact Hz].
  - unfold softmax_row.
    rewrite <- (map_map exp (fun y => y / Np.sum (map exp r))).
    rewrite sum_map_div. field. lra.
Qed.

End Softmax.

(** ** Comprehensions over calls that may raise *)

Section ComprehensionOutcome.
Context {A B : Type}.
Implicit Types (f : A -> outcome B) (l : list A).

Lemma comprehension_ext (g h : A -> M B) l :
  (forall x, g x = h x) -> comprehension g l = comprehension h l.
Proof.
  intros Hgh. induction l as [|x l IH]; [reflexivity|].
  simpl. by rewrite Hgh, IH.
Qed.

Lemma comprehension_cons_ok (g : A -> M B) x l (y : B) :
  g x = ([], Ok y) ->
  comprehension g (x :: l)
  = (Iter :: trace (comprehension g l),
     match result (comprehension g l) with
     | Ok ys => Ok (y :: ys)
     | Raise e => Raise e
     end).
Proof.
  intros Hx. simpl comprehension. rewrite Hx.
  destruct (comprehension g l) as [t [ys|e]]; unfold bind, emit, ret; simpl;
    by rewrite ?app_nil_r.
Qed.

Lemma comprehension_cons_raise (g : A -> M B) x l e :
  g x = ([], Raise e) -> comprehension g (x :: l) = ([Iter], Raise e).
Proof. intros Hx. simpl comprehension. by rewrite Hx. Qed.

Lemma comprehension_returns f l (out : list B) :
  Forall2 (fun x y => f x = Ok y) l out ->
  comprehension (fun x => lib (f x)) l
  = (List.repeat Iter (length l), Ok out).
Proof.
  induction 1 as [|x y l out Hxy _ IH]; [reflexivity|].
  rewrite (comprehension_cons_ok _ _ _ y) by (by rewrite Hxy).
  by rewrite IH.
Qed.

Lemma comprehension_raises f (before : list A) x after e :
  Forall (fun y => exists b, f y = Ok b) before ->
  f x = Raise e ->
  comprehension (fun x => lib (f x)) (before ++ x :: after)
  = (List.repeat Iter (S (length before)), Raise e).
Proof.
  intros Hbefore Hx.
  induction Hbefore as [|y before [b Hy] _ IH].
  - apply comprehension_cons_raise. by rewrite Hx.
  - simpl app.
    rewrite (comprehension_cons_ok _ _ _ b) by (by rewrite Hy).
    by rewrite IH.
Qed.

Lemma outcome_cases f l :
  (exists out, Forall2 (fun x y => f x = Ok y) l out)
  \/ (exists e, first_failure f l e).
Proof.
  induction l as [|x l [[out IH]|[e (before & y & after & -> & Hb & Hy)]]].
  - left. exists []. constructor.
  - destruct (f x) as [b|e] eqn:Hx.
    + left. exists (b :: out). by constructor.
    + right. exists e, [], x, l. repeat split; [constructor | exact Hx].
  - destruct (f x) as [b|e'] eqn:Hx.
    + right. exists e, (x :: before), y, after.
      repeat split; [|exact Hy]. constructor; [by exists b | exact Hb].
    + right. exists e', [], x, (before ++ y :: after).
      repeat split; [constructor | exact Hx].
Qed.

(** A comprehension raises exactly the exception of the first call that
    raises, and returns only if every call returned. *)
Lemma comprehension_result_raise f l e :
  result (comprehension (fun x => lib (f x)) l) = Raise e
  <-> first_failure f l e.
Proof.
  split.
  - intros Hres. destruct (outcome_cases f l) as [[out Hout]|[e' Hfail]].
    + rewrite (comprehension_returns _ _ _ Hout) in Hres. discriminate.
    + pose proof Hfail as (before & x & after & -> & Hb & Hx).
      rewrite (comprehension_raises _ _ _ _ _ Hb Hx) in Hres.
      injection Hres as ->. exact Hfail.
  - intros (before & x & after & -> & Hb & Hx).
    by rewrite (comprehension_raises _ _ _ _ _ Hb Hx).
Qed.

Lemma comprehension_result_ok f l (out : list B) :
  result (comprehension (fun x => lib (f x)) l) = Ok out
  <-> Forall2 (fun x y => f x = Ok y) l out.
Proof.
  split.
  - intros Hres. destruct (outcome_cases f l) as [[out' Hout]|[e Hfail]].
    + rewrite (comprehension_returns _ _ _ Hout) in Hres.
      injection Hres as <-. exact Hout.
    + destruct Hfail as (before & x & after & -> & Hb & Hx).
      rewrite (comprehension_raises _ _ _ _ _ Hb Hx) in Hres. discriminate.
  - intros Hout. by rewrite (comprehension_returns _ _ _ Hout).
Qed.

(** The loop goes through one iteration per entry until a call raises. *)
Lemma comprehension_trace f l :
  exists k,
    trace (comprehension (fun x => lib (f x)) l) = List.repeat Iter k
    /\ (k <= length l)%nat
    /\ (forall out,
          result (comprehension (fun x => lib (f x)) l) = Ok out ->
          k = length l /\ length out = length l).
Proof.
  destruct (outcome_cases f l)
    as [[out Hout]|[e (before & x & after & -> & Hb & Hx)]].
  - exists (length l). rewrite (comprehension_returns _ _ _ Hout).
    split; [reflexivity|]. split; [lia|].
    intros out' [= <-]. split; [reflexivity|].
    symmetry. by eapply Forall2_length.
  - exists (S (length before)).
    rewrite (comprehension_raises _ _ _ _ _ Hb Hx).
    split; [reflexivity|]. split; [rewrite length_app; simpl; lia|].
    intros out [=].
Qed.

End ComprehensionOutcome.

(** ** The runs of [aggregate_crops] *)

Section AggregateCropsRuns.
Import Notebook.
Context {B : Type}.
Implicit Types (arr : Array2) (splits : list Z)
               (agg_func : list R -> outcome B).

Lemma crop_body_outcome agg_func (sig : Array2) :
  bind (lib (Np.column0 sig)) (fun column => lib (agg_func column))
  = lib (crop_outcome agg_func sig).
Proof.
  unfold crop_outcome. destruct (Np.column0 sig) as [c|e]; [|reflexivity].
  exact (bind_lib_ok c (fun column => lib (agg_func column))).
Qed.

(** Labels: the branch is skipped. *)
Lemma aggregate_crops_run_labels arr splits agg_func :
  aggregate_crops arr splits agg_func false
  = (Branch false
     :: trace (comprehension (fun sig => lib (crop_outcome agg_func sig))
                 (Np.split arr (Np.py_slice (Np.cumsum splits) 0 (-1)))),
     result (comprehension (fun sig => lib (crop_outcome agg_func sig))
               (Np.split arr (Np.py_slice (Np.cumsum splits) 0 (-1))))).
Proof.
  rewrite aggregate_crops_labels_run.
  rewrite (comprehension_ext _ _ _ (crop_body_outcome agg_func)).
  unfold bind, emit. by destruct (comprehension _ _).
Qed.

(** Predictions from an array without columns: the row maximum raises. *)
Lemma aggregate_crops_run_no_columns arr splits agg_func :
  ncols arr = 0%nat ->
  aggregate_crops arr splits agg_func true = ([Branch true], Raise ValueError).
Proof.
  intros Hn. unfold aggregate_crops, if_then, Np.max_axis1. rewrite Hn.
  reflexivity.
Qed.

(** Predictions: the caller's array is overwritten with the shifted rows,
    and the softmax is what gets split. *)
Lemma aggregate_crops_run_predictions arr splits agg_func :
  ncols arr <> 0%nat ->
  aggregate_crops arr splits agg_func true
  = (Branch true :: InPlace (shifted arr)
     :: trace (comprehension (fun sig => lib (crop_outcome agg_func sig))
                 (Np.split (softmax arr)
                    (Np.py_slice (Np.cumsum splits) 0 (-1)))),
     result (comprehension (fun sig => lib (crop_outcome agg_func sig))
               (Np.split (softmax arr)
                  (Np.py_slice (Np.cumsum splits) 0 (-1))))).
Proof.
  intros Hn. unfold aggregate_crops.
  assert (Hstage :
    if_then true
      (bind (lib (Np.max_axis1 arr))
         (fun row_max =>
            bind (emit (InPlace (Np.broadcast_cols Rminus arr row_max)))
              (fun _ =>
                 ret (Np.broadcast_cols Rdiv
                        (Np.exp (Np.broadcast_cols Rminus arr row_max))
                        (Np.sum_axis1
                           (Np.exp (Np.broadcast_cols Rminus arr row_max)))))))
      (ret arr)
    = ([Branch true; InPlace (shifted arr)], Ok (softmax arr))).
  { unfold Np.max_axis1. destruct (ncols arr) as [|n]; [done|].
    unfold if_then. rewrite bind_lib_ok.
    destruct (softmax_code arr) as [-> ->]. reflexivity. }
  rewrite Hstage. unfold bind at 1.
  rewrite (comprehension_ext _ _ _ (crop_body_outcome agg_func)).
  by destruct (comprehension _ _).
Qed.

End AggregateCropsRuns.

(** ** Exceptions pass through the helper functions *)

Section Propagation.
Import Notebook.


Lemma make_data_raises {Seg Lab} `{!Cropped Seg} (batch : Batch Seg Lab)
    (e : exn) :
  result (make_data batch) = Raise e
  <-> Np.array (shaped_crops (signal batch)) = Raise e
      \/ ((exists signals,
             Np.array (shaped_crops (signal batch)) = Ok signals)
          /\ Np.repeat (target batch) (map length (signal batch))
             = Raise e).
Proof.
  rewrite make_data_run. unfold result. simpl snd.
  destruct (Np.array _) as [signals|e1].
  - destruct (Np.repeat _ _) as [targets|e2]; split.
    + discriminate.
    + intros [H|[_ H]]; discriminate.
    + intros [= ->]. right. split; [by exists signals | reflexivity].
    + intros [H|[_ [= ->]]]; [discriminate | reflexivity].
  - split.
    + intros [= ->]. by left.
    + intros [[= ->]|[[signals H] _]]; [reflexivity | discriminate].
Qed.


Section LibraryCalls.
Context {Pipeline Model Metrics Score : Type}.
Context (get_model_by_name : Pipeline -> string -> outcome Model)
        (get_number_of_trainable_vars : Model -> outcome Z)
        (get_variable : Pipeline -> string -> outcome Metrics)
        (evaluate : Metrics -> string -> outcome Score).



End LibraryCalls.

End Propagation.



(** ** Control flow of the helper functions *)

Section ControlFlow.
Import Notebook.

Lemma control_flow_repeat_iter (k : nat) :
  filter (fun ev => is_control_flow ev = true) (List.repeat Iter k)
  = List.repeat Iter k.
Proof.
  induction k as [|k IH]; [reflexivity|].
  simpl List.repeat. rewrite filter_cons_True by reflexivity. by rewrite IH.
Qed.

Lemma length_cumsum_from (l : list Z) :
  forall acc, length (Np.cumsum_from acc l) = length l.
Proof. induction l as [|x l IH]; intros acc; simpl; [|rewrite IH]; reflexivity. Qed.

Lemma length_slices {A} (l : list A) (points : list Z) :
  forall st, length (Np.slices l (st :: points)) = length points.
Proof.
  induction points as [|en points IH]; intros st; [reflexivity|].
  transitivity (S (length (Np.slices l (en :: points)))); [reflexivity|].
  by rewrite IH.
Qed.

(** [np.split] at the running sums yields one block per split, and one
    block when there is no split. *)
Lemma length_split (arr : Array2) (splits : list Z) :
  length (Np.split arr (Np.py_slice (Np.cumsum splits) 0 (-1)))
  = S (Nat.pred (length splits)).
Proof.
  unfold Np.split. rewrite length_map, length_slices, length_app.
  rewrite py_slice_init, removelast_firstn_len, length_firstn.
  unfold Np.cumsum. rewrite length_cumsum_from. simpl. lia.
Qed.

Lemma make_data_control_flow {Seg Lab} `{!Cropped Seg}
    (batch : Batch Seg Lab) :
  control_flow (make_data batch)
  = List.repeat Iter (2 * length (signal batch)
                      + list_sum (map length (signal batch))).
Proof.
  rewrite make_data_run. unfold control_flow, trace. simpl fst.
  assert (H : flat_map (fun sg : list Seg => Iter :: List.repeat Iter (length sg))
                       (signal batch)
              = List.repeat Iter (length (signal batch)
                                  + list_sum (map length (signal batch)))).
  { induction (signal batch) as [|sg l IH]; [reflexivity|].
    simpl. rewrite IH, <- repeat_app. f_equal. f_equal. lia. }
  rewrite H, <- repeat_app, control_flow_repeat_iter. f_equal. lia.
Qed.

Lemma aggregate_crops_control_flow {B} (arr : Array2) (splits : list Z)
    (agg_func : list R -> outcome B) (predictions : bool) :
  exists k,
    control_flow (aggregate_crops arr splits agg_func predictions)
    = Branch predictions :: List.repeat Iter k
    /\ (k <= S (Nat.pred (length splits)))%nat
    /\ (forall out,
          result (aggregate_crops arr splits agg_func predictions) = Ok out ->
          k = length out /\ k = S (Nat.pred (length splits))).
Proof.
  destruct predictions.
  - destruct (ncols arr) as [|n] eqn:Hn.
    + rewrite aggregate_crops_run_no_columns by exact Hn.
      exists 0%nat. split; [reflexivity|]. split; [lia|]. intros out [=].
    + rewrite aggregate_crops_run_predictions by (rewrite Hn; discriminate).
      destruct (comprehension_trace (crop_outcome agg_func)
                  (Np.split (softmax arr)
                     (Np.py_slice (Np.cumsum splits) 0 (-1))))
        as (k & Htr & Hle & Hok).
      rewrite length_split in Hle, Hok.
      exists k. unfold control_flow. unfold trace at 1. simpl fst.
      rewrite Htr.
      rewrite filter_cons_True by reflexivity.
      rewrite filter_cons_False by (simpl; discriminate).
      rewrite control_flow_repeat_iter. split; [reflexivity|].
      split; [exact Hle|]. unfold result at 1. simpl snd.
      intros out Hout. destruct (Hok out Hout) as [-> ->]. by split.
  - rewrite aggregate_crops_run_labels.
    destruct (comprehension_trace (crop_outcome agg_func)
                (Np.split arr (Np.py_slice (Np.cumsum splits) 0 (-1))))
      as (k & Htr & Hle & Hok).
    rewrite length_split in Hle, Hok.
    exists k. unfold control_flow. unfold trace at 1. simpl fst.
    rewrite Htr.
    rewrite filter_cons_True by reflexivity.
    rewrite control_flow_repeat_iter. split; [reflexivity|].
    split; [exact Hle|]. unfold result at 1. simpl snd.
    intros out Hout. destruct (Hok out Hout) as [-> ->]. by split.
Qed.

Lemma center_flip_control_flow (draw : bool) (signal : list R) :
  control_flow (center_flip draw signal) = [].
Proof.
  unfold center_flip. destruct (Np.mean signal) as [m|e]; [|reflexivity].
  by rewrite bind_lib_ok.
Qed.

End ControlFlow.

Section ControlFlowOfLibraryCalls.
Import Notebook.
Context {Pipeline Model Metrics Score : Type}.
Context (get_model_by_name : Pipeline -> string -> outcome Model)
        (get_number_of_trainable_vars : Model -> outcome Z)
        (get_variable : Pipeline -> string -> outcome Metrics)
        (evaluate : Metrics -> string -> outcome Score).

Lemma get_trainable_variables_control_flow iteration experiment ppl
    model_name :
  control_flow (get_trainable_variables Pipeline Model get_model_by_name
                  get_number_of_trainable_vars iteration experiment ppl
                  model_name) = [].
Proof.
  unfold get_trainable_variables.
  destruct (getitem Pipeline experiment ppl) as [unit|e1]; [|reflexivity].
  rewrite bind_lib_ok.
  destruct (get_model_by_name _ _) as [model|e2]; [|reflexivity].
  rewrite bind_lib_ok. reflexivity.
Qed.

Lemma calc_metrics_control_flow iteration experiment ppl var_name :
  control_flow (calc_metrics Pipeline Metrics Score get_variable evaluate
                  iteration experiment ppl var_name) = [].
Proof.
  unfold calc_metrics.
  destruct (getitem Pipeline experiment ppl) as [unit|e1]; [|reflexivity].
  rewrite bind_lib_ok.
  destruct (get_variable _ _) as [metrics|e2]; [|reflexivity].
  rewrite bind_lib_ok.
  destruct (evaluate _ _) as [f1|e3]; [|reflexivity].
  rewrite bind_lib_ok. reflexivity.
Qed.

End ControlFlowOfLibraryCalls.

(** C3 (as amended): [center_flip], [get_trainable_variables] and
    [calc_metrics] are straight-line code; [make_data] evaluates no
    conditional but iterates over the batch, twice per signal and once per
    segment; [aggregate_crops] evaluates exactly one conditional, on
    [predictions], and then at most one loop iteration per block, exactly
    one per returned entry when nothing raises. *)
Theorem helper_control_flow :
  (forall draw signal,
     control_flow (Notebook.center_flip draw signal) = [])
  /\ (forall Pipeline Model
             (get_model_by_name : Pipeline -> string -> outcome Model)
             (get_number_of_trainable_vars : Model -> outcome Z)
             iteration experiment ppl model_name,
        control_flow (Notebook.get_trainable_variables Pipeline Model
                        get_model_by_name get_number_of_trainable_vars
                        iteration experiment ppl model_name) = [])
  /\ (forall Pipeline Metrics Score
             (get_variable : Pipeline -> string -> outcome Metrics)
             (evaluate : Metrics -> string -> outcome Score)
             iteration experiment ppl var_name,
        control_flow (Notebook.calc_metrics Pipeline Metrics Score
                        get_variable evaluate iteration experiment ppl
                        var_name) = [])
  /\ (forall Seg Lab (shape : Notebook.Cropped Seg)
             (batch : Notebook.Batch Seg Lab),
        control_flow (Notebook.make_data batch)
        = List.repeat Iter
            (2 * length (Notebook.signal batch)
             + list_sum (map length (Notebook.signal batch))))
  /\ (forall B arr splits (agg_func : list R -> outcome B) predictions,
        exists k,
          control_flow
            (Notebook.aggregate_crops arr splits agg_func predictions)
          = Branch predictions :: List.repeat Iter k
          /\ (k <= S (Nat.pred (length splits)))%nat
          /\ (forall out,
                result (Notebook.aggregate_crops arr splits agg_func
                          predictions) = Ok out ->
                k = length out /\ k = S (Nat.pred (length splits)))).
Proof.
  split; [|split; [|split; [|split]]].
  - apply center_flip_control_flow.
  - intros Pipeline Model gm gn.
    apply get_trainable_variables_control_flow.
  - intros Pipeline Metrics Score gv ev. apply calc_metrics_control_flow.
  - intros Seg Lab shape. apply make_data_control_flow.
  - intros B. apply aggregate_crops_control_flow.
Qed.

Lemma helper_control_flow_witness :
  exists k,
    control_flow (Notebook.aggregate_crops Samples.arr Samples.splits
                    (fun c => Ok (Np.max_list c)) false)
    = Branch false :: List.repeat Iter k
    /\ (k <= 2)%nat.
Proof.
  destruct helper_control_flow as (_ & _ & _ & _ & Hcrops).
  destruct (Hcrops R Samples.arr Samples.splits
              (fun c => Ok (Np.max_list c)) false) as (k & Hk & Hle & _).
  exists k. split; [exact Hk | exact Hle].
Defined.

(** C3 as stated fails: a conditional and two loop iterations evaluate
    when [aggregate_crops] aggregates the sample labels, and seven loop
    iterations when [make_data] prepares the sample batch. *)
Lemma control_flow_evaluates :
  control_flow (Notebook.aggregate_crops Samples.arr Samples.splits
                  (fun c => Ok (Np.max_list c)) false)
  = [Branch false; Iter; Iter]
  /\ control_flow (Notebook.make_data Samples.batch) = List.repeat Iter 7
  /\ ~ (forall arr splits (agg_func : list R -> outcome R) predictions,
          control_flow
            (Notebook.aggregate_crops arr splits agg_func predictions) = []).
Proof.
  assert (H : control_flow
                (Notebook.aggregate_crops Samples.arr Samples.splits
                   (fun c => Ok (Np.max_list c)) false)
              = [Branch false; Iter; Iter]) by reflexivity.
  split; [exact H|]. split; [reflexivity|].
  intros Hall. rewrite Hall in H. discriminate.
Qed.

(** ** What the helper functions do to the numbers they receive *)

Section Transformations.
Import Notebook.
Local Open Scope R_scope.

Lemma repeat_entries {T} (a : list T) (repeats : list nat) (out : list T) :
  Np.repeat a repeats = Ok out -> forall x, In x out -> In x a.
Proof.
  unfold Np.repeat. intros H x Hx.
  assert (Hbroadcast : forall n, In x (flat_map (fun y => List.repeat y n) a)
                                 -> In x a).
  { intros n Hin. apply in_flat_map in Hin as (y & Hy & Hrep).
    apply repeat_spec in Hrep. by subst. }
  assert (Heach : In x (flat_map (fun '(y, n) => List.repeat y n)
                                 (combine a repeats)) -> In x a).
  { intros Hin. apply in_flat_map in Hin as ([y n] & Hy & Hrep).
    apply repeat_spec in Hrep. subst. by apply in_combine_l in Hy. }
  destruct repeats as [|n [|n' repeats]].
  - destruct (Nat.eqb _ _); [|discriminate]. injection H as <-. auto.
  - injection H as <-. eauto.
  - destruct (Nat.eqb _ _); [|discriminate]. injection H as <-. auto.
Qed.

(** [make_data] regroups: the segments and labels it returns are segments
    and labels of the batch. *)
Lemma make_data_regroups {Seg Lab} `{!Cropped Seg} (batch : Batch Seg Lab)
    fd :
  result (make_data batch) = Ok fd ->
  exists signals labels,
    fd = {[ "feed_dict" :=
              {[ "signals" := Signals signals; "labels" := Labels labels ]} ]}
    /\ (forall seg, In seg signals ->
          exists sg, In sg (signal batch) /\ In seg sg)
    /\ (forall t, In t labels -> In t (target batch)).
Proof.
  rewrite make_data_run. unfold result. simpl snd.
  destruct (Np.array _) as [signals|e] eqn:Harr; [|discriminate].
  destruct (Np.repeat _ _) as [targets|e] eqn:Hrep; [|discriminate].
  intros [= <-]. exists signals, targets.
  split; [reflexivity|]. split.
  - apply array_returns in Harr as [-> _].
    destruct (shaped_crops_parts (signal batch)) as [_ ->].
    intros seg Hin. apply in_concat in Hin as (sg & Hsg & Hseg). eauto.
  - apply (repeat_entries _ _ _ Hrep).
Qed.

(** The signal 0, 4 has mean 2 and comes back as -2, 2 or 2, -2. *)
Lemma center_flip_sample (draw : bool) :
  result (center_flip draw [0; 4])
  = Ok (if draw then [-2; 2] else [2; -2]).
Proof.
  rewrite center_flip_nonempty by discriminate.
  unfold result. destruct draw; simpl; repeat f_equal; lra.
Qed.

Lemma center_flip_new_values (draw : bool) :
  ~ passes_values_through (center_flip draw).
Proof.
  intros Hpass.
  specialize (Hpass _ _ (center_flip_sample draw) 2
                ltac:(destruct draw; simpl; auto)).
  simpl in Hpass. destruct Hpass as [H|[H|[]]]; lra.
Qed.

Lemma array_after_iterations (a : Array2) (k : nat) :
  fold_left (fun a ev => match ev with InPlace a' => a' | _ => a end)
            (List.repeat Iter k) a = a.
Proof. induction k as [|k IH]; [reflexivity | exact IH]. Qed.

(** With [predictions=True], [aggregate_crops] aggregates the softmax of
    the array and leaves the caller's array shifted by its row maxima. *)
Lemma aggregate_crops_softmax {B} (arr : Array2) (splits : list Z)
    (agg_func : list R -> outcome B) :
  ncols arr <> 0%nat ->
  result (aggregate_crops arr splits agg_func true)
  = result (aggregate_crops (softmax arr) splits agg_func false)
  /\ array_after arr (aggregate_crops arr splits agg_func true)
     = shifted arr.
Proof.
  intros Hn.
  rewrite aggregate_crops_run_predictions by exact Hn.
  rewrite aggregate_crops_run_labels. split; [reflexivity|].
  destruct (comprehension_trace (crop_outcome agg_func)
              (Np.split (softmax arr)
                 (Np.py_slice (Np.cumsum splits) 0 (-1))))
    as (k & Htr & _).
  unfold array_after. unfold trace at 1. simpl fst. rewrite Htr.
  simpl fold_left. apply array_after_iterations.
Qed.

Lemma aggregate_crops_labels_untouched {B} (arr : Array2) (splits : list Z)
    (agg_func : list R -> outcome B) :
  result (aggregate_crops arr splits agg_func false)
  = result (comprehension (fun sig => lib (crop_outcome agg_func sig))
              (Np.split arr (Np.py_slice (Np.cumsum splits) 0 (-1))))
  /\ array_after arr (aggregate_crops arr splits agg_func false) = arr.
Proof.
  rewrite aggregate_crops_run_labels. split; [reflexivity|].
  destruct (comprehension_trace (crop_outcome agg_func)
              (Np.split arr (Np.py_slice (Np.cumsum splits) 0 (-1))))
    as (k & Htr & _).
  unfold array_after. unfold trace at 1. simpl fst. rewrite Htr.
  simpl fold_left. apply array_after_iterations.
Qed.

End Transformations.

(** C2 (as amended): two functions of the notebook implement numerical
    transformations of their own.  [center_flip] returns numbers that are
    not among those it is given: in exact arithmetic, the signal minus its
    mean, multiplied by the random sign.  [aggregate_crops] with
    [predictions=True] aggregates, in exact arithmetic, the row-wise
    softmax of its array and overwrites the caller's array with the rows
    shifted by their maxima.  [make_data], and [aggregate_crops] with
    [predictions=False], only regroup the values they are given. *)
Theorem helper_transformations :
  (forall draw,
     ~ passes_values_through (Notebook.center_flip draw)
     /\ (forall signal,
           signal <> [] ->
           exists mean,
             Np.mean signal = Ok mean
             /\ result (Notebook.center_flip draw signal)
                = Ok (map (fun x => ((if draw then 1 else -1)
                                     * (x - mean))%R) signal)))
  /\ (forall B arr splits (agg_func : list R -> outcome B),
        ncols arr <> 0%nat ->
        result (Notebook.aggregate_crops arr splits agg_func true)
        = result (Notebook.aggregate_crops (softmax arr) splits agg_func
                    false)
        /\ array_after arr
             (Notebook.aggregate_crops arr splits agg_func true)
           = shifted arr)
  /\ (forall B arr splits (agg_func : list R -> outcome B),
        result (Notebook.aggregate_crops arr splits agg_func false)
        = result (comprehension (fun sig => lib (crop_outcome agg_func sig))
                    (Np.split arr (Np.py_slice (Np.cumsum splits) 0 (-1))))
        /\ array_after arr
             (Notebook.aggregate_crops arr splits agg_func false) = arr)
  /\ (forall Seg Lab (shape : Notebook.Cropped Seg)
             (batch : Notebook.Batch Seg Lab) fd,
        result (Notebook.make_data batch) = Ok fd ->
        exists signals labels,
          fd = {[ "feed_dict" :=
                    {[ "signals" := Notebook.Signals signals;
                       "labels" := Notebook.Labels labels ]} ]}
          /\ (forall seg, In seg signals ->
                exists sg, In sg (Notebook.signal batch) /\ In seg sg)
          /\ (forall t, In t labels -> In t (Notebook.target batch))).
Proof.
  split; [|split; [|split]].
  - intros draw. split; [apply center_flip_new_values|].
    intros signal Hne. eexists. split; [by apply mean_nonempty|].
    by rewrite center_flip_nonempty.
  - intros B. apply aggregate_crops_softmax.
  - intros B. apply aggregate_crops_labels_untouched.
  - intros Seg Lab shape. apply make_data_regroups.
Qed.

Lemma helper_transformations_witness :
  [0; 4]%R <> []
  /\ (exists mean,
        Np.mean [0; 4]%R = Ok mean
        /\ result (Notebook.center_flip false [0; 4]%R)
           = Ok (map (fun x => (-1 * (x - mean))%R) [0; 4]%R))
  /\ ncols (mkArray2 2 [[0; 0]%R]) <> 0%nat
  /\ array_after (mkArray2 2 [[0; 0]%R])
       (Notebook.aggregate_crops (mkArray2 2 [[0; 0]%R]) [1]
          (fun c => Ok c) true)
     = shifted (mkArray2 2 [[0; 0]%R]).
Proof.
  assert (H1 : [0; 4]%R <> []) by discriminate.
  assert (H2 : ncols (mkArray2 2 [[0; 0]%R]) <> 0%nat) by discriminate.
  destruct helper_transformations as (Hflip & Hsoft & _).
  split; [exact H1|]. split; [|split; [exact H2|]].
  - destruct (Hflip false) as [_ Hformula]. exact (Hformula _ H1).
  - by apply (Hsoft (list R) (mkArray2 2 [[0; 0]%R]) [1] (fun c => Ok c)).
Defined.

(** C2 as stated fails: [center_flip] does not hand on the numbers it is
    given (the signal 0, 4 comes back as -2, 2 or 2, -2), and
    [aggregate_crops] turns the predictions 0, 0 into the probability
    1/2. *)
Lemma helpers_transform_numbers :
  result (Notebook.center_flip true [0; 4]%R) = Ok [-2; 2]%R
  /\ result (Notebook.center_flip false [0; 4]%R) = Ok [2; -2]%R
  /\ ~ passes_values_through (Notebook.center_flip true)
  /\ ~ passes_values_through (Notebook.center_flip false)
  /\ result (Notebook.aggregate_crops (mkArray2 2 [[0; 0]%R]) [1]
               (fun c => Ok c) true)
     = Ok [[(1 / 2)%R]].
Proof.
  assert (Ht : result (Notebook.center_flip true [0; 4]%R) = Ok [-2; 2]%R).
  { rewrite center_flip_nonempty by discriminate.
    unfold result. simpl. repeat f_equal; lra. }
  assert (Hf : result (Notebook.center_flip false [0; 4]%R) = Ok [2; -2]%R).
  { rewrite center_flip_nonempty by discriminate.
    unfold result. simpl. repeat f_equal; lra. }
  split; [exact Ht|]. split; [exact Hf|]. split; [|split].
  - intros Hpass. specialize (Hpass _ _ Ht 2%R ltac:(simpl; auto)).
    simpl in Hpass. destruct Hpass as [H|[H|[]]]; lra.
  - intros Hpass. specialize (Hpass _ _ Hf 2%R ltac:(simpl; auto)).
    simpl in Hpass. destruct Hpass as [H|[H|[]]]; lra.
  - rewrite aggregate_crops_run_predictions by discriminate.
    unfold result.
    assert (Hsplit : Np.split (softmax (mkArray2 2 [[0; 0]%R]))
                       (Np.py_slice (Np.cumsum [1]) 0 (-1))
                     = [mkArray2 2 [softmax_row [0; 0]%R]])
      by reflexivity.
    rewrite Hsplit. simpl. unfold softmax_row. simpl.
    rewrite exp_0. repeat f_equal. lra.
Qed.

(** * Further properties of the notebook's code *)

(** ** The training schedule (cells 32 and 45) *)

Section Schedule.
Import Constants.

(** X1: the iterations of a run, at [BATCH_SIZE] items each, cover more
    than [EPOCHS] passes over the training set and overshoot by at most
    one batch per epoch. *)
Theorem iterations_cover_epochs (TRAIN_SIZE : Z) :
  EPOCHS * TRAIN_SIZE < ITERATIONS TRAIN_SIZE * BATCH_SIZE
  /\ ITERATIONS TRAIN_SIZE * BATCH_SIZE <= EPOCHS * (TRAIN_SIZE + BATCH_SIZE).
Proof.
  unfold ITERATIONS, EPOCHS, BATCH_SIZE.
  pose proof (Z.div_mod TRAIN_SIZE 32 ltac:(lia)).
  pose proof (Z.mod_pos_bound TRAIN_SIZE 32 ltac:(lia)). lia.
Qed.

(** X2: the iterations counted per epoch are the number of batches needed
    to hold the training set, plus one more exactly when the training set
    is a whole number of batches. *)
Theorem iterations_per_epoch (TRAIN_SIZE : Z) :
  ITERATIONS TRAIN_SIZE / EPOCHS
  = ceil_div TRAIN_SIZE BATCH_SIZE
    + (if TRAIN_SIZE mod BATCH_SIZE =? 0 then 1 else 0).
Proof.
  rewrite ITERATIONS_div_EPOCHS. unfold ceil_div, BATCH_SIZE.
  pose proof (Z.div_mod TRAIN_SIZE 32 ltac:(lia)) as Hdm.
  pose proof (Z.mod_pos_bound TRAIN_SIZE 32 ltac:(lia)) as Hb.
  destruct (Z.eqb_spec (TRAIN_SIZE mod 32) 0) as [H0|Hn].
  - assert (TRAIN_SIZE + 32 - 1 = 31 + TRAIN_SIZE / 32 * 32) as -> by lia.
    rewrite Z.div_add by discriminate. change (31 / 32) with 0. ring.
  - assert (TRAIN_SIZE + 32 - 1
            = (TRAIN_SIZE mod 32 - 1) + (TRAIN_SIZE / 32 + 1) * 32) as ->
      by lia.
    rewrite Z.div_add by discriminate.
    rewrite (Z.div_small (_ - 1)) by (clear Hdm; lia). ring.
Qed.

(** X3: the run is a whole number of test periods: the iterations that
    are multiples of TEST_EXEC_FOR are exactly the 15 = EPOCHS /
    TEST_EACH_EPOCH multiples up to ITERATIONS, the last iteration among
    them. *)
Theorem test_runs_per_research (TRAIN_SIZE : Z) :
  0 <= TRAIN_SIZE ->
  ITERATIONS TRAIN_SIZE = EPOCHS / TEST_EACH_EPOCH * TEST_EXEC_FOR TRAIN_SIZE
  /\ EPOCHS / TEST_EACH_EPOCH = 15
  /\ (forall i,
        0 < i <= ITERATIONS TRAIN_SIZE ->
        (i mod TEST_EXEC_FOR TRAIN_SIZE = 0
         <-> exists j, 1 <= j <= 15 /\ i = j * TEST_EXEC_FOR TRAIN_SIZE)).
Proof.
  intros HT.
  pose proof (TEST_EXEC_FOR_pos TRAIN_SIZE HT) as Hpos.
  assert (Hit : ITERATIONS TRAIN_SIZE = 15 * TEST_EXEC_FOR TRAIN_SIZE).
  { rewrite TEST_EXEC_FOR_closed. unfold ITERATIONS, EPOCHS, TEST_EACH_EPOCH.
    lia. }
  split; [exact Hit|]. split; [reflexivity|].
  intros i Hi. rewrite Hit in Hi. split.
  - intros Hmod. exists (i / TEST_EXEC_FOR TRAIN_SIZE).
    pose proof (Z.div_mod i (TEST_EXEC_FOR TRAIN_SIZE) ltac:(lia)) as Hdm.
    rewrite Hmod in Hdm. nia.
  - intros (j & Hj & ->). apply Z.mod_mul. lia.
Qed.

Lemma test_runs_per_research_witness :
  0 <= 6822
  /\ ITERATIONS 6822 = EPOCHS / TEST_EACH_EPOCH * TEST_EXEC_FOR 6822
  /\ (4280 mod TEST_EXEC_FOR 6822 = 0
      <-> exists j, 1 <= j <= 15 /\ 4280 = j * TEST_EXEC_FOR 6822).
Proof.
  assert (H : 0 <= 6822) by lia.
  destruct (test_runs_per_research 6822 H) as (H1 & _ & H3).
  split; [exact H|]. split; [exact H1|].
  apply H3. split; [lia|]. vm_compute. discriminate.
Defined.

(** X4: the frequency string tells training sets apart exactly by their
    number of full batches. *)
Theorem STR_EXEC_determines_batches (size1 size2 : Z) :
  STR_EXEC size1 = STR_EXEC size2
  <-> size1 / BATCH_SIZE = size2 / BATCH_SIZE.
Proof.
  unfold STR_EXEC. split.
  - intros H. apply format_percent_inj in H.
    rewrite !TEST_EXEC_FOR_closed in H. unfold TEST_EACH_EPOCH in H. lia.
  - intros H. by rewrite !TEST_EXEC_FOR_closed, H.
Qed.

End Schedule.

(** ** More on [center_flip] (cell 35) *)

Section CenterFlipMore.
Import Notebook.
Local Open Scope R_scope.

Lemma sum_map_add (c : R) (l : list R) :
  Np.sum (map (fun x => x + c) l) = Np.sum l + INR (length l) * c.
Proof.
  induction l as [|x l IH].
  - simpl. ring.
  - change (length (x :: l)) with (S (length l)). rewrite S_INR.
    simpl. rewrite IH. ring.
Qed.

Lemma result_center_flip (draw : bool) (signal : list R) :
  signal <> [] ->
  result (center_flip draw signal)
  = Ok (map (fun x => Np.random_choice_sign draw
                      * (x - Np.sum signal / INR (length signal)))
            signal).
Proof. intros H. by rewrite center_flip_nonempty. Qed.

Lemma center_flip_returns_nonempty (draw : bool) (signal out : list R) :
  result (center_flip draw signal) = Ok out -> signal <> [].
Proof. intros H ->. discriminate. Qed.

(** X5: in exact arithmetic, a constant offset of the signal (a baseline
    shift) does not show in the result. *)
Theorem center_flip_shift_invariant (draw : bool) (c : R) (signal : list R) :
  result (center_flip draw (map (fun x => x + c) signal))
  = result (center_flip draw signal).
Proof.
  destruct (decide (signal = [])) as [->|Hne]; [reflexivity|].
  rewrite !result_center_flip by (by destruct signal).
  f_equal. rewrite map_map. apply map_ext. intros x.
  rewrite sum_map_add, length_map.
  pose proof (INR_length_nonzero signal Hne) as Hn.
  f_equal. field. exact Hn.
Qed.

(** X6: in exact arithmetic, [center_flip] commutes with rescaling the
    signal. *)
Theorem center_flip_scales (draw : bool) (k : R) (signal out : list R) :
  result (center_flip draw signal) = Ok out ->
  result (center_flip draw (map (fun x => k * x) signal))
  = Ok (map (fun y => k * y) out).
Proof.
  intros Hout. pose proof (center_flip_returns_nonempty _ _ _ Hout) as Hne.
  rewrite result_center_flip in Hout by exact Hne. injection Hout as <-.
  rewrite result_center_flip by (by destruct signal).
  f_equal. rewrite !map_map. apply map_ext. intros x.
  rewrite sum_map_scale, length_map.
  pose proof (INR_length_nonzero signal Hne) as Hn.
  field. exact Hn.
Qed.

Lemma center_flip_scales_witness :
  result (center_flip true [0; 4]) = Ok [-2; 2]
  /\ result (center_flip true (map (fun x => 3 * x) [0; 4]))
     = Ok (map (fun y => 3 * y) [-2; 2]).
Proof.
  assert (H : result (center_flip true [0; 4]) = Ok [-2; 2]).
  { rewrite center_flip_nonempty by discriminate.
    unfold result. simpl. repeat f_equal; lra. }
  split; [exact H|]. exact (center_flip_scales true 3 [0; 4] [-2; 2] H).
Defined.

(** X7: in exact arithmetic, a centred signal is only ever flipped:
    applied to its own output, [center_flip] returns it unchanged or
    negated. *)
Theorem center_flip_twice (draw1 draw2 : bool) (signal out : list R) :
  result (center_flip draw1 signal) = Ok out ->
  result (center_flip draw2 out)
  = Ok (if draw2 then out else map Ropp out).
Proof.
  intros Hout. pose proof (center_flip_returns_nonempty _ _ _ Hout) as Hne.
  rewrite result_center_flip in Hout by exact Hne. injection Hout as <-.
  unfold center_flip.
  rewrite (mean_center_flip_output (Np.random_choice_sign draw1) signal Hne).
  rewrite bind_lib_ok. unfold result, ret. simpl snd. f_equal.
  destruct draw2; simpl Np.random_choice_sign.
  - rewrite <- (map_id (map _ signal)) at 2.
    apply map_ext. intros y. ring.
  - apply map_ext. intros y. ring.
Qed.

Lemma center_flip_twice_witness :
  result (center_flip true [0; 4]) = Ok [-2; 2]
  /\ result (center_flip false [-2; 2]) = Ok (map Ropp [-2; 2]).
Proof.
  assert (H : result (center_flip true [0; 4]) = Ok [-2; 2]).
  { rewrite center_flip_nonempty by discriminate.
    unfold result. simpl. repeat f_equal; lra. }
  split; [exact H|]. exact (center_flip_twice true false [0; 4] [-2; 2] H).
Defined.

End CenterFlipMore.

(** ** More on [make_data] (cell 38) *)

Section MakeDataMore.
Import Notebook.
Context {Seg Lab : Type} `{!Cropped Seg}.

Lemma repeat_raises {T} (a : list T) (repeats : list nat) (e : exn) :
  Np.repeat a repeats = Raise e
  <-> e = ValueError
      /\ length repeats <> 1%nat
      /\ length a <> length repeats.
Proof.
  unfold Np.repeat.
  destruct repeats as [|n1 [|n2 repeats]].
  - destruct (Nat.eqb_spec (length a) (length (@nil nat))) as [Heq|Hne].
    + split; [discriminate|]. intros (_ & _ & H). by destruct H.
    + split.
      * intros [= <-]. repeat split; [discriminate | exact Hne].
      * by intros (-> & _ & _).
  - split; [discriminate|]. intros (_ & H & _). by destruct H.
  - destruct (Nat.eqb_spec (length a) (length (n1 :: n2 :: repeats)))
      as [Heq|Hne].
    + split; [discriminate|]. intros (_ & _ & H). by destruct H.
    + split.
      * intros [= <-]. repeat split; [discriminate | exact Hne].
      * by intros (-> & _ & _).
Qed.

(** X8: [make_data] fails only with [ValueError], and exactly when the
    crops of the batch do not all have one shape ([np.array]) or the batch
    has a number of signals other than one that differs from its number of
    labels ([np.repeat]). *)
Theorem make_data_raises_exactly (batch : Batch Seg Lab) (e : exn) :
  result (make_data batch) = Raise e
  <-> e = ValueError
      /\ (~ one_shape (crop_shapes (signal batch))
          \/ (length (signal batch) <> 1%nat
              /\ length (target batch) <> length (signal batch))).
Proof.
  rewrite make_data_raises, array_raises, repeat_raises, length_map.
  destruct (shaped_crops_parts (signal batch)) as [-> _].
  split.
  - intros [[-> Hnot]|[_ (-> & H1 & H2)]]; split; auto.
  - intros [-> [Hnot|[H1 H2]]]; [by left|].
    destruct (one_shape_dec (crop_shapes (signal batch))) as [Hone|Hnot];
      [|by left].
    right. split; [|by repeat split].
    exists (concat (signal batch)). by apply array_shaped_crops.
Qed.

(** X9: with a single signal the label count is not checked: every label
    is repeated once per segment of that signal, however many labels the
    batch has. *)
Theorem make_data_single_signal (sg : list Seg) (targets : list Lab) :
  result (make_data (mkBatch [sg] targets))
  = Ok {[ "feed_dict" :=
            {[ "signals" := Signals sg;
               "labels" :=
                 Labels (flat_map (fun t => List.repeat t (length sg))
                                  targets) ]} ]}
  /\ length (flat_map (fun t => List.repeat t (length sg)) targets)
     = (length targets * length sg)%nat.
Proof.
  split.
  - rewrite make_data_run_one_shape.
    + simpl. by rewrite app_nil_r.
    + apply (one_shape_same (crop_shape sg)). unfold crop_shapes. simpl.
      rewrite app_nil_r. apply Forall_forall. intros a Ha.
      by apply list_elem_of_In, repeat_spec in Ha.
  - induction targets as [|t targets IH]; [reflexivity|].
    simpl. rewrite length_app, repeat_length, IH. reflexivity.
Qed.

End MakeDataMore.

(** ** More on [aggregate_crops] (cell 41) *)

Section AggregateCropsMore.
Import Notebook.
Context {B : Type}.
Implicit Types (arr : Array2) (splits : list Z)
               (agg_func : list R -> outcome B).

Lemma cumsum_from_snoc splits (a : Z) :
  forall acc,
    Np.cumsum_from acc (splits ++ [a])
    = Np.cumsum_from acc splits ++ [acc + zsum splits + a].
Proof.
  induction splits as [|s splits IH]; intros acc; simpl.
  - do 2 f_equal. lia.
  - rewrite IH. do 3 f_equal. lia.
Qed.

(** The split points: all running sums but the last. *)
Lemma split_points_snoc splits (a : Z) :
  Np.py_slice (Np.cumsum (splits ++ [a])) 0 (-1) = Np.cumsum splits.
Proof.
  rewrite py_slice_init. unfold Np.cumsum.
  rewrite cumsum_from_snoc. apply removelast_last.
Qed.

(** X10: the last entry of [splits] is never used: the last block runs to
    the end of the array whatever that entry says. *)
Theorem aggregate_crops_last_split_ignored arr splits (a b : Z) agg_func
    (predictions : bool) :
  aggregate_crops arr (splits ++ [a]) agg_func predictions
  = aggregate_crops arr (splits ++ [b]) agg_func predictions.
Proof.
  unfold aggregate_crops. by rewrite !split_points_snoc.
Qed.

Lemma py_slice_all {A} (l : list A) :
  Np.py_slice l 0 (Z.of_nat (length l)) = l.
Proof.
  rewrite <- (Z.add_0_l (Z.of_nat (length l))).
  rewrite py_slice_inside by lia.
  rewrite Nat2Z.id. simpl. apply firstn_all.
Qed.

Lemma split_nowhere arr : Np.split arr [] = [arr].
Proof.
  unfold Np.split, nrows. simpl. rewrite py_slice_all. by destruct arr.
Qed.

Lemma split_points_short splits :
  (length splits <= 1)%nat -> Np.py_slice (Np.cumsum splits) 0 (-1) = [].
Proof.
  intros H. rewrite py_slice_init.
  destruct splits as [|a [|b splits]]; [reflexivity | reflexivity |].
  simpl in H. lia.
Qed.

(** X11: with no split or a single one, whatever its value, the whole
    array is one block and the result has one entry. *)
Theorem aggregate_crops_one_block arr splits agg_func (predictions : bool) :
  (length splits <= 1)%nat ->
  predictions = false \/ ncols arr <> 0%nat ->
  result (aggregate_crops arr splits agg_func predictions)
  = match crop_outcome agg_func (staged arr predictions) with
    | Ok b => Ok [b]
    | Raise e => Raise e
    end.
Proof.
  intros Hlen Hcols. destruct predictions.
  - destruct Hcols as [|Hcols]; [discriminate|].
    rewrite aggregate_crops_run_predictions by exact Hcols.
    rewrite split_points_short by exact Hlen. rewrite split_nowhere.
    unfold result at 1. simpl snd. simpl staged.
    by destruct (crop_outcome agg_func (softmax arr)).
  - rewrite aggregate_crops_run_labels.
    rewrite split_points_short by exact Hlen. rewrite split_nowhere.
    unfold result at 1. simpl snd. simpl staged.
    by destruct (crop_outcome agg_func (arr)).
Qed.

End AggregateCropsMore.

Lemma aggregate_crops_one_block_witness :
  (length [7] <= 1)%nat
  /\ (false = false \/ ncols Samples.arr <> 0%nat)
  /\ result (Notebook.aggregate_crops Samples.arr [7] Np.max false)
     = match crop_outcome Np.max (staged Samples.arr false) with
       | Ok b => Ok [b]
       | Raise e => Raise e
       end.
Proof.
  assert (H1 : (length [7] <= 1)%nat) by (simpl; lia).
  assert (H2 : false = false \/ ncols Samples.arr <> 0%nat) by (by left).
  split; [exact H1|]. split; [exact H2|].
  exact (aggregate_crops_one_block Samples.arr [7] Np.max false H1 H2).
Defined.

(** ** The softmax stage of [aggregate_crops] *)

Section SoftmaxStage.
Import Notebook.
Local Open Scope R_scope.

Lemma fold_left_Rmax_ge (l : list R) :
  forall a, a <= fold_left Rmax l a
            /\ (forall x, In x l -> x <= fold_left Rmax l a).
Proof.
  induction l as [|y l IH]; intros a; simpl.
  - split; [lra | tauto].
  - destruct (IH (Rmax a y)) as [H1 H2].
    pose proof (Rmax_l a y). pose proof (Rmax_r a y).
    split; [lra|]. intros x [<-|Hx]; [lra | by apply H2].
Qed.

Lemma fold_left_Rmax_in (l : list R) :
  forall a, In (fold_left Rmax l a) (a :: l).
Proof.
  induction l as [|y l IH]; intros a; simpl; [by left|].
  destruct (IH (Rmax a y)) as [H|H]; [|by right; right].
  rewrite <- H. unfold Rmax. destruct (Rle_dec a y); [right|]; by left.
Qed.

Lemma max_list_ge (r : list R) (x : R) : In x r -> x <= Np.max_list r.
Proof.
  destruct r as [|a r]; [done|]. simpl.
  destruct (fold_left_Rmax_ge r a) as [H1 H2].
  intros [<-|Hx]; [exact H1 | by apply H2].
Qed.

Lemma max_list_in (r : list R) : r <> [] -> In (Np.max_list r) r.
Proof. destruct r as [|a r]; [done|]. intros _. apply fold_left_Rmax_in. Qed.

(** X12: after a call with [predictions=True] the caller's array has its
    shape unchanged and holds the rows shifted so that every entry is at
    most 0 and each row has an entry equal to 0 (so no exponential
    exceeds 1). *)
Theorem aggregate_crops_leaves_shifted {B} (arr : Array2) (splits : list Z)
    (agg_func : list R -> outcome B) :
  rectangular arr ->
  ncols arr <> 0%nat ->
  exists arr',
    array_after arr (aggregate_crops arr splits agg_func true) = arr'
    /\ ncols arr' = ncols arr
    /\ nrows arr' = nrows arr
    /\ rectangular arr'
    /\ Forall (fun r => Forall (fun x => x <= 0) r /\ In 0 r) (rows arr').
Proof.
  intros Hrect Hcols. exists (shifted arr).
  split; [by apply aggregate_crops_softmax|].
  split; [reflexivity|]. unfold nrows, rectangular, shifted. simpl.
  split; [apply length_map|]. split.
  - apply Forall_map. eapply Forall_impl; [exact Hrect|]. simpl.
    intros r Hr. by rewrite length_map.
  - apply Forall_map. eapply Forall_impl; [exact Hrect|]. simpl.
    intros r Hr. assert (Hne : r <> []) by (intros ->; simpl in Hr; lia).
    split.
    + apply Forall_map, Forall_forall. intros x Hx. simpl.
      apply list_elem_of_In in Hx. pose proof (max_list_ge r x Hx). lra.
    + apply in_map_iff. exists (Np.max_list r).
      split; [lra | by apply max_list_in].
Qed.

Lemma aggregate_crops_leaves_shifted_witness :
  rectangular MoreSamples.logits
  /\ ncols MoreSamples.logits <> 0%nat
  /\ exists arr',
       array_after MoreSamples.logits
         (aggregate_crops MoreSamples.logits Samples.splits TestPipeline.np_mean true)
       = arr'
       /\ Forall (fun r => Forall (fun x => x <= 0) r /\ In 0 r) (rows arr').
Proof.
  assert (H1 : rectangular MoreSamples.logits) by (repeat constructor).
  assert (H2 : ncols MoreSamples.logits <> 0%nat) by discriminate.
  split; [exact H1|]. split; [exact H2|].
  destruct (aggregate_crops_leaves_shifted MoreSamples.logits Samples.splits
              TestPipeline.np_mean H1 H2) as (arr' & Ha & _ & _ & _ & Hf).
  exists arr'. split; [exact Ha | exact Hf].
Defined.

Lemma softmax_row_offset (c : R) (r : list R) :
  softmax_row (map (fun x => x + c) r) = softmax_row r.
Proof.
  rewrite <- (softmax_row_shift (- c) r).
  rewrite <- (softmax_row_shift (- c) (map (fun x => x + c) r)).
  assert (H : map (fun x => x - - c) (map (fun x => x + c) r)
              = map (fun x => x - - c + c) r).
  { rewrite map_map. apply map_ext. intros x. ring. }
  rewrite H.
  pose proof (softmax_row_shift (- c - c) r) as H1.
  assert (H2 : map (fun x => x - - c + c) r = map (fun x => x - (- c - c)) r).
  { apply map_ext. intros x. ring. }
  rewrite H2, H1. by rewrite softmax_row_shift.
Qed.

Lemma softmax_add_to_rows (arr : Array2) (offsets : list R) :
  length offsets = nrows arr ->
  softmax (add_to_rows arr offsets) = softmax arr.
Proof.
  unfold softmax, add_to_rows, Np.broadcast_cols, nrows. simpl.
  intros Hlen. f_equal. revert offsets Hlen.
  induction (rows arr) as [|r l IH]; intros [|c offsets] Hlen;
    try discriminate; [reflexivity|].
  simpl. rewrite softmax_row_offset, IH; [reflexivity|].
  by injection Hlen.
Qed.

(** X13: in exact arithmetic, adding one constant to all the predictions
    of a crop (a row) changes nothing in the aggregated result. *)
Theorem aggregate_crops_offset_invariant {B} (arr : Array2)
    (offsets : list R) (splits : list Z) (agg_func : list R -> outcome B) :
  length offsets = nrows arr ->
  result (aggregate_crops (add_to_rows arr offsets) splits agg_func true)
  = result (aggregate_crops arr splits agg_func true).
Proof.
  intros Hlen. destruct (ncols arr) as [|n] eqn:Hn.
  - rewrite !aggregate_crops_run_no_columns by assumption. reflexivity.
  - rewrite !aggregate_crops_run_predictions
      by (unfold add_to_rows, Np.broadcast_cols; simpl; rewrite ?Hn;
          discriminate).
    by rewrite softmax_add_to_rows.
Qed.

Lemma aggregate_crops_offset_invariant_witness :
  length [5; 6; 7] = nrows MoreSamples.logits
  /\ result (aggregate_crops (add_to_rows MoreSamples.logits [5; 6; 7])
               Samples.splits TestPipeline.np_mean true)
     = result (aggregate_crops MoreSamples.logits Samples.splits
                 TestPipeline.np_mean true).
Proof.
  split; [reflexivity|].
  by apply (aggregate_crops_offset_invariant MoreSamples.logits [5; 6; 7]).
Defined.

End SoftmaxStage.

(** ** The two aggregation steps of the test pipeline (cell 42) *)

Section TestPipelineSteps.
Import Notebook TestPipeline.
Local Open Scope R_scope.

Lemma sum_bounds (l : list R) :
  Forall (fun p => 0 < p <= 1) l ->
  0 <= Np.sum l <= INR (length l) /\ (l <> [] -> 0 < Np.sum l).
Proof.
  induction 1 as [|p l Hp _ [IH _]].
  - simpl. split; [lra | done].
  - change (length (p :: l)) with (S (length l)). rewrite S_INR. simpl.
    split; [lra | intros _; lra].
Qed.

Lemma mean_of_probabilities (l : list R) :
  l <> [] -> Forall (fun p => 0 < p <= 1) l ->
  0 < Np.sum l / INR (length l) <= 1.
Proof.
  intros Hne Hl. destruct (sum_bounds l Hl) as [[_ Hle] Hpos].
  specialize (Hpos Hne).
  assert (Hn : 0 < INR (length l)).
  { apply lt_0_INR. destruct l; [done | simpl; lia]. }
  split.
  - by apply Rdiv_lt_0_compat.
  - unfold Rdiv.
    replace 1 with (INR (length l) * / INR (length l)) by (field; lra).
    apply Rmult_le_compat_r; [|lra].
    left. by apply Rinv_0_lt_compat.
Qed.

Lemma entry_le_sum (l : list R) (p : R) :
  Forall (fun q => 0 < q) l -> In p l -> p <= Np.sum l.
Proof.
  induction 1 as [|q l Hq Hl IH]; [done|].
  assert (H0 : 0 <= Np.sum l).
  { clear -Hl. induction Hl; simpl; lra. }
  simpl. intros [->|Hp]; [lra|]. specialize (IH Hp). lra.
Qed.

(** Every entry of a softmax row is a probability. *)
Lemma softmax_row_probabilities (r : list R) :
  Forall (fun p => 0 < p <= 1) (softmax_row r).
Proof.
  destruct (decide (r = [])) as [->|Hne]; [constructor|].
  destruct (softmax_row_distribution r Hne) as [Hpos Hsum].
  apply Forall_forall. intros p Hp. apply list_elem_of_In in Hp. split.
  - rewrite List.Forall_forall in Hpos. by apply Hpos.
  - rewrite <- Hsum. by apply entry_le_sum.
Qed.

Lemma softmax_shape (arr : Array2) :
  ncols (softmax arr) = ncols arr /\ nrows (softmax arr) = nrows arr.
Proof. unfold softmax, nrows. simpl. by rewrite length_map. Qed.

Lemma positive_block_sizes (splits : list Z) (l : list (list R)) :
  Forall (fun s => (0 < s)%Z) splits ->
  zsum splits = Z.of_nat (length l) ->
  Forall (fun block => block <> [])
         (consecutive_blocks (map Z.to_nat splits) l)
  /\ concat (consecutive_blocks (map Z.to_nat splits) l) = l
  /\ length (consecutive_blocks (map Z.to_nat splits) l) = length splits.
Proof.
  intros Hpos Hsum.
  assert (Hnonneg : Forall (fun s => (0 <= s)%Z) splits)
    by (eapply Forall_impl; [exact Hpos|]; simpl; lia).
  destruct (consecutive_blocks_lengths (map Z.to_nat splits) l)
    as [Hlens Hconcat].
  { apply Nat2Z.inj. rewrite list_sum_to_nat by exact Hnonneg. exact Hsum. }
  split; [|split; [exact Hconcat|]].
  - apply Forall_forall. intros block Hin ->.
    apply list_elem_of_In, (in_map length) in Hin. rewrite Hlens in Hin.
    apply in_map_iff in Hin as (s & Hs & Hin).
    rewrite List.Forall_forall in Hpos. specialize (Hpos s Hin).
    simpl in Hs. lia.
  - rewrite <- (length_map length), Hlens. apply length_map.
Qed.

(** X14: in exact arithmetic, on a well-formed array of predictions and
    positive splits that add up to its rows, the aggregated predictions
    are one probability per signal: never NaN, above 0 and at most 1. *)
Theorem aggregate_predictions_probabilities (arr : Array2)
    (splits : list (list Z)) :
  rectangular arr ->
  ncols arr <> 0%nat ->
  concat splits <> [] ->
  Forall (fun s => (0 < s)%Z) (concat splits) ->
  zsum (concat splits) = Z.of_nat (nrows arr) ->
  exists out,
    result (aggregate_predictions arr splits) = Ok out
    /\ length out = length (concat splits)
    /\ Forall (fun v => exists p, v = Some p /\ 0 < p <= 1) out.
Proof.
  intros Hrect Hcols Hne Hpos Hsum. unfold aggregate_predictions.
  destruct (softmax_shape arr) as [Hsc Hsr].
  assert (Hnonneg : Forall (fun s => (0 <= s)%Z) (concat splits))
    by (eapply Forall_impl; [exact Hpos|]; simpl; lia).
  rewrite aggregate_crops_run_predictions by exact Hcols.
  rewrite split_at_cumsum by (try assumption; by rewrite Hsr).
  rewrite Hsc. destruct (ncols arr) as [|n] eqn:Hn; [done|].
  destruct (positive_block_sizes (concat splits) (rows (softmax arr)) Hpos)
    as (Hblocks & Hconcat & Hlen).
  { rewrite Hsum. unfold nrows. simpl. by rewrite length_map. }
  set (blocks := consecutive_blocks (map Z.to_nat (concat splits))
                                    (rows (softmax arr))) in *.
  assert (Hprob : Forall (Forall (fun r => exists p r', r = p :: r'
                                             /\ 0 < p <= 1)) blocks).
  { apply Forall_concat. rewrite Hconcat. unfold softmax. simpl.
    apply Forall_map. eapply Forall_impl; [exact Hrect|]. simpl.
    intros r Hr. rewrite Hn in Hr.
    pose proof (softmax_row_probabilities r) as Hp.
    destruct r as [|x r]; [discriminate|].
    unfold softmax_row in *. simpl in *. inversion Hp; subst. eauto. }
  exists (map (fun block => Some (Np.sum (column 0 block)
                                  / INR (length (column 0 block)))) blocks).
  split; [|split].
  - unfold result at 1. simpl snd. apply comprehension_result_ok.
    apply Forall2_fmap_l, Forall2_fmap_r, Forall_Forall2_diag.
    apply Forall_forall. intros block Hin.
    rewrite Forall_forall in Hblocks. specialize (Hblocks block Hin).
    unfold compose, crop_outcome. rewrite column0_column. unfold np_mean.
    destruct block as [|r block]; [done | reflexivity].
  - by rewrite length_map.
  - apply Forall_map.
    apply Forall_forall. intros block Hin. simpl.
    rewrite Forall_forall in Hblocks, Hprob.
    specialize (Hblocks block Hin). specialize (Hprob block Hin).
    eexists. split; [reflexivity|].
    apply mean_of_probabilities.
    + destruct block; [done | discriminate].
    + unfold column. apply Forall_map.
      eapply Forall_impl; [exact Hprob|]. simpl.
      intros r (p & r' & -> & Hp). exact Hp.
Qed.

Lemma aggregate_predictions_probabilities_witness :
  rectangular MoreSamples.logits
  /\ ncols MoreSamples.logits <> 0%nat
  /\ concat [[2%Z]; [1%Z]] <> []
  /\ Forall (fun s => (0 < s)%Z) (concat [[2%Z]; [1%Z]])
  /\ zsum (concat [[2%Z]; [1%Z]]) = Z.of_nat (nrows MoreSamples.logits)
  /\ exists out,
       result (aggregate_predictions MoreSamples.logits [[2%Z]; [1%Z]])
       = Ok out
       /\ length out = 2%nat
       /\ Forall (fun v => exists p, v = Some p /\ 0 < p <= 1) out.
Proof.
  assert (H1 : rectangular MoreSamples.logits) by (repeat constructor).
  assert (H2 : ncols MoreSamples.logits <> 0%nat) by discriminate.
  assert (H3 : concat [[2%Z]; [1%Z]] <> []) by discriminate.
  assert (H4 : Forall (fun s => (0 < s)%Z) (concat [[2%Z]; [1%Z]]))
    by (repeat constructor).
  assert (H5 : zsum (concat [[2%Z]; [1%Z]])
               = Z.of_nat (nrows MoreSamples.logits)) by reflexivity.
  repeat (split; [assumption|]).
  exact (aggregate_predictions_probabilities MoreSamples.logits
           [[2%Z]; [1%Z]] H1 H2 H3 H4 H5).
Defined.

End TestPipelineSteps.

Section TestPipelineTargets.
Import Notebook TestPipeline.
Context {Seg Lab : Type} `{!Cropped Seg}.
Local Open Scope R_scope.

Lemma max_repeat (x : R) (k : nat) :
  Np.max (List.repeat x (S k)) = Ok x.
Proof.
  unfold Np.max. simpl. f_equal.
  induction k as [|k IH]; [reflexivity|].
  simpl. rewrite Rmax_left by lra. exact IH.
Qed.

Lemma splits_component_flat (signals : list (list Seg)) (targets : list Lab) :
  concat (splits_component (mkBatch signals targets))
  = map (fun sg => Z.of_nat (length sg)) signals.
Proof.
  unfold splits_component. simpl.
  induction signals as [|sg signals IH]; [reflexivity|].
  simpl. by rewrite IH.
Qed.

Lemma blocks_of_repeated_labels (signals : list (list Seg))
    (rows : list (list R)) :
  length rows = length signals ->
  consecutive_blocks (map length signals)
    (flat_map (fun '(sg, t) => List.repeat t (length sg))
              (combine signals rows))
  = map (fun '(sg, t) => List.repeat t (length sg))
        (combine signals rows).
Proof.
  revert rows.
  induction signals as [|sg signals IH]; intros [|t rows] Hlen;
    try discriminate; [reflexivity|].
  simpl.
  rewrite firstn_app, skipn_app, repeat_length, Nat.sub_diag.
  rewrite firstn_all2 by (rewrite repeat_length; lia).
  rewrite skipn_all2 by (rewrite repeat_length; lia).
  rewrite firstn_O, skipn_O, app_nil_r, app_nil_l, IH; [reflexivity|].
  by injection Hlen.
Qed.

Lemma encode_repeated_labels (encode : Lab -> list R)
    (signals : list (list Seg)) (targets : list Lab) :
  map encode (flat_map (fun '(sg, t) => List.repeat t (length sg))
                       (combine signals targets))
  = flat_map (fun '(sg, t) => List.repeat t (length sg))
             (combine signals (map encode targets)).
Proof.
  revert targets.
  induction signals as [|sg signals IH]; intros [|t targets];
    try reflexivity.
  simpl. rewrite map_app, IH. f_equal.
  generalize (length sg). intros k.
  induction k as [|k IHk]; [reflexivity|]. simpl. by rewrite IHk.
Qed.

Lemma aggregate_repeated_rows (signals : list (list Seg))
    (rows : list (list R)) (n : nat) :
  Forall (fun sg => sg <> []) signals ->
  length rows = length signals ->
  Forall2 (fun block y =>
             crop_outcome Np.max (mkArray2 (S n) block) = Ok y)
          (map (fun '(sg, t) => List.repeat t (length sg))
               (combine signals rows))
          (column 0 rows).
Proof.
  intros Hcrops. revert rows.
  induction Hcrops as [|sg signals Hsg _ IH]; intros [|t rows] Hlen;
    try discriminate; [constructor|].
  change (column 0 (t :: rows)) with (nth 0 t 0 :: column 0 rows).
  simpl combine. simpl map.
  constructor; [|apply IH; by injection Hlen].
  unfold crop_outcome. rewrite column0_column.
  destruct sg as [|seg sg]; [done|]. unfold column.
  change (length (seg :: sg)) with (S (length sg)).
  assert (Hrep : forall k, map (fun r : list R => nth 0 r 0)
                               (List.repeat t k)
                           = List.repeat (nth 0 t 0) k).
  { induction k as [|k IHk]; [reflexivity|]. simpl. by rewrite IHk. }
  rewrite Hrep. apply max_repeat.
Qed.

(** X15: what [make_data] spreads out, [aggregate_crops] gathers again.
    Let the targets array be the row-wise encoding of the labels that
    [make_data] feeds, every row with the same one or more columns.  When
    the batch has a signal, every signal has at least one crop, the crops
    have one shape and there is one label per signal, aggregating the
    targets with the splits of the batch and [np.max] gives, for each
    signal, column 0 of the encoding of its label. *)
Theorem targets_round_trip (batch : Batch Seg Lab) (encode : Lab -> list R)
    (n : nat) :
  signal batch <> [] ->
  Forall (fun sg => sg <> []) (signal batch) ->
  one_shape (crop_shapes (signal batch)) ->
  length (target batch) = length (signal batch) ->
  Forall (fun t => length (encode t) = S n) (target batch) ->
  exists fd inner labels,
    result (make_data batch) = Ok fd
    /\ fd !! "feed_dict" = Some inner
    /\ inner !! "labels" = Some (Labels labels)
    /\ rectangular (mkArray2 (S n) (map encode labels))
    /\ result (aggregate_targets (mkArray2 (S n) (map encode labels))
                 (splits_component batch))
       = Ok (map (fun t => nth 0 (encode t) 0) (target batch)).
Proof.
  destruct batch as [signals targets]. simpl.
  intros Hne Hcrops Hone Hlen Hrows.
  rewrite make_data_run_one_shape by exact Hone. simpl signal. simpl target.
  pose proof (repeat_per_signal signals targets Hlen) as Hrep.
  rewrite Hrep.
  do 3 eexists. split; [reflexivity|].
  split; [by simplify_map_eq|]. split; [by simplify_map_eq|].
  split.
  { unfold rectangular. simpl. apply Forall_map, Forall_forall.
    intros t Ht. apply list_elem_of_In in Ht.
    apply (repeat_entries _ _ _ Hrep) in Ht. simpl.
    rewrite List.Forall_forall in Hrows. by apply Hrows. }
  rewrite encode_repeated_labels.
  assert (Hlen' : length (map encode targets) = length signals)
    by (by rewrite length_map).
  unfold aggregate_targets. rewrite splits_component_flat.
  rewrite aggregate_crops_run_labels. unfold result at 1. simpl snd.
  assert (Hsizes : map Z.to_nat (map (fun sg : list Seg => Z.of_nat (length sg))
                                     signals) = map length signals).
  { rewrite map_map. apply map_ext. intros sg. apply Nat2Z.id. }
  rewrite split_at_cumsum.
  - simpl ncols. simpl rows. rewrite Hsizes.
    rewrite blocks_of_repeated_labels by exact Hlen'.
    apply comprehension_result_ok.
    apply Forall2_fmap_l.
    replace (map (fun t => nth 0 (encode t) 0) targets)
      with (column 0 (map encode targets))
      by (unfold column; by rewrite map_map).
    by apply aggregate_repeated_rows.
  - destruct signals; [done | discriminate].
  - apply Forall_map, Forall_forall. intros sg _. simpl.
    apply Nat2Z.is_nonneg.
  - unfold nrows. simpl rows.
    rewrite (length_labels signals (map encode targets)) by exact Hlen'.
    clear. induction signals as [|sg signals IH]; [reflexivity|].
    simpl. rewrite Nat2Z.inj_add, <- IH. reflexivity.
Qed.

End TestPipelineTargets.

Lemma targets_round_trip_witness :
  Notebook.signal MoreSamples.labelled_batch <> []
  /\ Forall (fun sg => sg <> []) (Notebook.signal MoreSamples.labelled_batch)
  /\ one_shape (crop_shapes (Notebook.signal MoreSamples.labelled_batch))
  /\ length (Notebook.target MoreSamples.labelled_batch)
     = length (Notebook.signal MoreSamples.labelled_batch)
  /\ Forall (fun t : list R => length t = 2%nat)
            (Notebook.target MoreSamples.labelled_batch)
  /\ exists labels,
       result (TestPipeline.aggregate_targets
                 (mkArray2 2 (map (fun t => t) labels))
                 (TestPipeline.splits_component MoreSamples.labelled_batch))
       = Ok (map (fun t => nth 0 t 0%R)
                 (Notebook.target MoreSamples.labelled_batch)).
Proof.
  assert (H1 : Notebook.signal MoreSamples.labelled_batch <> [])
    by discriminate.
  assert (H2 : Forall (fun sg => sg <> [])
                      (Notebook.signal MoreSamples.labelled_batch))
    by (repeat constructor; discriminate).
  assert (H3 : one_shape
                 (crop_shapes (Notebook.signal MoreSamples.labelled_batch)))
    by (apply (one_shape_same []); repeat constructor).
  assert (H4 : length (Notebook.target MoreSamples.labelled_batch)
               = length (Notebook.signal MoreSamples.labelled_batch))
    by reflexivity.
  assert (H5 : Forall (fun t : list R => length t = 2%nat)
                      (Notebook.target MoreSamples.labelled_batch))
    by (repeat constructor).
  repeat (split; [assumption|]).
  destruct (targets_round_trip MoreSamples.labelled_batch (fun t => t) 1
              H1 H2 H3 H4 H5) as (fd & inner & labels & _ & _ & _ & _ & H).
  exists labels. exact H.
Defined.

Section EmptyBlocks.
Import Notebook TestPipeline.

Lemma crop_max_raises (n : nat) (block : list (list R)) (e : exn) :
  crop_outcome Np.max (mkArray2 (S n) block) = Raise e -> e = ValueError.
Proof.
  unfold crop_outcome. rewrite column0_column. unfold Np.max.
  destruct (column 0 block); [|discriminate]. by intros [= <-].
Qed.

Lemma Forall2_returns {A C} (f : A -> outcome C) (l : list A) (out : list C) :
  Forall2 (fun x y => f x = Ok y) l out ->
  forall x, In x l -> exists y, f x = Ok y.
Proof.
  induction 1 as [|x y l out Hxy _ IH]; intros z Hz; [done|].
  destruct Hz as [<-|Hz]; [eauto | by apply IH].
Qed.

(** X16: a signal without any crop (a zero among the splits) makes the
    aggregation of the targets raise the [ValueError] of [np.max] on an
    empty column. *)
Theorem aggregate_targets_empty_block (arr : Array2) (splits : list (list Z)) :
  ncols arr <> 0%nat ->
  Forall (fun s => 0 <= s) (concat splits) ->
  zsum (concat splits) = Z.of_nat (nrows arr) ->
  In 0 (concat splits) ->
  result (aggregate_targets arr splits) = Raise ValueError.
Proof.
  intros Hcols Hnonneg Hsum Hzero. unfold aggregate_targets.
  rewrite aggregate_crops_run_labels. unfold result at 1. simpl snd.
  rewrite split_at_cumsum;
    [|intros Hnil; rewrite Hnil in Hzero; destruct Hzero | exact Hnonneg
     | exact Hsum].
  destruct (ncols arr) as [|n]; [done|].
  destruct (consecutive_blocks_lengths (map Z.to_nat (concat splits))
              (rows arr)) as [Hlens _].
  { apply Nat2Z.inj. rewrite list_sum_to_nat by exact Hnonneg. exact Hsum. }
  set (blocks := consecutive_blocks (map Z.to_nat (concat splits))
                                    (rows arr)) in *.
  assert (Hempty : In [] blocks).
  { assert (Hin : In 0%nat (map length blocks)).
    { rewrite Hlens. apply in_map_iff. exists 0. by split. }
    apply in_map_iff in Hin as (block & Hlen & Hin).
    by destruct block. }
  apply comprehension_result_raise.
  destruct (outcome_cases (crop_outcome Np.max)
              (map (mkArray2 (S n)) blocks)) as [[out Hout]|[e Hfail]].
  - destruct (Forall2_returns _ _ _ Hout (mkArray2 (S n) [])) as [y Hy].
    { apply in_map_iff. by exists []. }
    discriminate.
  - pose proof Hfail as (before & x & after & Heq & _ & Hx).
    assert (Hin : In x (map (mkArray2 (S n)) blocks)).
    { rewrite Heq. apply in_or_app. right. by left. }
    apply in_map_iff in Hin as (block & <- & _).
    apply crop_max_raises in Hx. by subst e.
Qed.

End EmptyBlocks.

Lemma aggregate_targets_empty_block_witness :
  ncols Samples.arr <> 0%nat
  /\ Forall (fun s => 0 <= s) (concat [[0]; [3]])
  /\ zsum (concat [[0]; [3]]) = Z.of_nat (nrows Samples.arr)
  /\ In 0 (concat [[0]; [3]])
  /\ result (TestPipeline.aggregate_targets Samples.arr [[0]; [3]])
     = Raise ValueError.
Proof.
  assert (H1 : ncols Samples.arr <> 0%nat) by discriminate.
  assert (H2 : Forall (fun s => 0 <= s) (concat [[0]; [3]]))
    by (repeat constructor; lia).
  assert (H3 : zsum (concat [[0]; [3]]) = Z.of_nat (nrows Samples.arr))
    by reflexivity.
  assert (H4 : In 0 (concat [[0]; [3]])) by (simpl; auto).
  repeat (split; [assumption|]).
  exact (aggregate_targets_empty_block Samples.arr [[0]; [3]] H1 H2 H3 H4).
Defined.

Section PredictionsNeverRaise.
Import Notebook TestPipeline.

Lemma crop_mean_returns (n : nat) (block : list (list R)) :
  crop_outcome np_mean (mkArray2 (S n) block)
  = Ok (match column 0 block with
        | [] => None
        | _ => Some (Np.sum (column 0 block)
                     / INR (length (column 0 block)))%R
        end).
Proof. unfold crop_outcome. by rewrite column0_column. Qed.

Lemma aggregate_predictions_run (arr : Array2) (splits : list (list Z))
    (n : nat) :
  ncols arr = S n ->
  result (aggregate_predictions arr splits)
  = Ok (map (fun sig =>
               match column 0 (rows sig) with
               | [] => None
               | _ => Some (Np.sum (column 0 (rows sig))
                            / INR (length (column 0 (rows sig))))%R
               end)
            (Np.split (softmax arr)
               (Np.py_slice (Np.cumsum (concat splits)) 0 (-1)))).
Proof.
  intros Hn. unfold aggregate_predictions.
  rewrite aggregate_crops_run_predictions by (rewrite Hn; discriminate).
  unfold result at 1. simpl snd. apply comprehension_result_ok.
  apply Forall2_fmap_r, Forall_Forall2_diag, Forall_forall.
  intros sig Hin. unfold Np.split in Hin.
  apply list_elem_of_In, in_map_iff in Hin as (block & <- & _).
  simpl ncols. rewrite Hn. apply crop_mean_returns.
Qed.

(** X17: the aggregation of the predictions fails in one case only, with
    the [ValueError] of the row maximum of an array without columns;
    otherwise it returns one entry per split (one entry when there is no
    split). *)
Theorem aggregate_predictions_raises_exactly (arr : Array2)
    (splits : list (list Z)) :
  (forall e, result (aggregate_predictions arr splits) = Raise e
             <-> ncols arr = 0%nat /\ e = ValueError)
  /\ (ncols arr <> 0%nat ->
      exists out,
        result (aggregate_predictions arr splits) = Ok out
        /\ length out = S (Nat.pred (length (concat splits)))).
Proof.
  destruct (ncols arr) as [|n] eqn:Hn.
  - unfold aggregate_predictions.
    rewrite aggregate_crops_run_no_columns by exact Hn. split; [|done].
    intros e. unfold result. simpl snd. split.
    + by intros [= <-].
    + by intros [_ ->].
  - rewrite (aggregate_predictions_run arr splits n Hn). split.
    + intros e. split; [discriminate | intros [? _]; discriminate].
    + intros _. eexists. split; [reflexivity|].
      by rewrite length_map, length_split.
Qed.

(** X18: a signal without any crop gets NaN as its aggregated prediction:
    the mean of an empty column. *)
Theorem aggregate_predictions_empty_block (arr : Array2)
    (splits : list (list Z)) :
  ncols arr <> 0%nat ->
  Forall (fun s => 0 <= s) (concat splits) ->
  zsum (concat splits) = Z.of_nat (nrows arr) ->
  concat splits <> [] ->
  exists out,
    result (aggregate_predictions arr splits) = Ok out
    /\ (forall i : nat,
          concat splits !! i = Some 0 -> out !! i = Some None).
Proof.
  intros Hcols Hnonneg Hsum Hne.
  destruct (ncols arr) as [|n] eqn:Hn; [done|].
  rewrite (aggregate_predictions_run arr splits n Hn).
  eexists. split; [reflexivity|]. intros i Hi.
  destruct (softmax_shape arr) as [Hsc Hsr].
  rewrite split_at_cumsum by (try assumption; by rewrite Hsr).
  destruct (consecutive_blocks_lengths (map Z.to_nat (concat splits))
              (rows (softmax arr))) as [Hlens _].
  { apply Nat2Z.inj. rewrite list_sum_to_nat by exact Hnonneg.
    rewrite Hsum. unfold nrows, softmax. simpl. by rewrite length_map. }
  rewrite !list_lookup_fmap.
  assert (Hblock : map length
                     (consecutive_blocks (map Z.to_nat (concat splits))
                        (rows (softmax arr))) !! i = Some 0%nat).
  { rewrite Hlens, list_lookup_fmap, Hi. reflexivity. }
  rewrite list_lookup_fmap in Hblock.
  destruct (consecutive_blocks _ _ !! i) as [block|]; [|discriminate].
  simpl in Hblock. injection Hblock as Hblock.
  destruct block; [reflexivity | discriminate].
Qed.

End PredictionsNeverRaise.

Lemma aggregate_predictions_empty_block_witness :
  ncols Samples.arr <> 0%nat
  /\ Forall (fun s => 0 <= s) (concat [[0]; [3]])
  /\ zsum (concat [[0]; [3]]) = Z.of_nat (nrows Samples.arr)
  /\ concat [[0]; [3]] <> []
  /\ exists out,
       result (TestPipeline.aggregate_predictions Samples.arr [[0]; [3]])
       = Ok out
       /\ out !! 0%nat = Some None.
Proof.
  assert (H1 : ncols Samples.arr <> 0%nat) by discriminate.
  assert (H2 : Forall (fun s => 0 <= s) (concat [[0]; [3]]))
    by (repeat constructor; lia).
  assert (H3 : zsum (concat [[0]; [3]]) = Z.of_nat (nrows Samples.arr))
    by reflexivity.
  assert (H4 : concat [[0]; [3]] <> []) by discriminate.
  repeat (split; [assumption|]).
  destruct (aggregate_predictions_empty_block Samples.arr [[0]; [3]]
              H1 H2 H3 H4) as (out & Hout & Hnan).
  exists out. split; [exact Hout | by apply Hnan].
Defined.

(** ** The dataset paths (cell 24) *)

Section Paths.
Import Notebook.

Lemma contains_sep_append (a b : string) :
  contains_sep (a +:+ b) = contains_sep a || contains_sep b.
Proof.
  induction a as [|c a IH]; [reflexivity|].
  rewrite append_cons. simpl. rewrite IH. by rewrite orb_assoc.
Qed.

Lemma has_magic_append (a b : string) :
  has_magic (a +:+ b) = has_magic a || has_magic b.
Proof.
  induction a as [|c a IH]; [reflexivity|].
  rewrite append_cons. simpl. rewrite IH. by rewrite !orb_assoc.
Qed.

Lemma basename_plain (f : string) : contains_sep f = false -> basename f = f.
Proof.
  destruct f as [|c f]; [reflexivity|]. simpl.
  intros H. apply orb_false_iff in H as [-> ->]. reflexivity.
Qed.

Lemma basename_after_sep (a f : string) :
  contains_sep f = false -> basename (a +:+ "/" +:+ f) = f.
Proof.
  intros Hf. induction a as [|c a IH].
  - change (EmptyString +:+ "/" +:+ f) with (String "/" f).
    simpl. by rewrite Hf.
  - rewrite append_cons. simpl basename.
    rewrite contains_sep_append. change ("/" +:+ f) with (String "/" f).
    simpl contains_sep. rewrite orb_true_r. exact IH.
Qed.

Lemma endswith_sep_split (a : string) :
  endswith_sep a = true -> exists a', a = a' +:+ "/".
Proof.
  induction a as [|c a IH]; [discriminate|].
  destruct a as [|c' a].
  - simpl. intros H. apply Ascii.eqb_eq in H as ->. by exists EmptyString.
  - intros H. destruct IH as [a' Ha']; [exact H|].
    exists (String c a'). by rewrite append_cons, <- Ha'.
Qed.

Lemma relative_file (f : string) :
  contains_sep f = false -> startswith_sep f = false.
Proof.
  destruct f as [|c f]; [reflexivity|]. simpl.
  intros H. by apply orb_false_iff in H as [-> _].
Qed.

Lemma append_assoc (a b c : string) : (a +:+ b) +:+ c = a +:+ b +:+ c.
Proof.
  induction a as [|x a IH]; [reflexivity|]. by rewrite !append_cons, IH.
Qed.

Lemma basename_os_path_join (a f : string) :
  contains_sep f = false -> basename (os_path_join a f) = f.
Proof.
  intros Hf. unfold os_path_join. rewrite (relative_file f Hf).
  destruct a as [|c a].
  - simpl. by apply basename_plain.
  - assert (Hor : (match String c a with
                    | EmptyString => true
                    | _ => false
                    end || endswith_sep (String c a))
                   = endswith_sep (String c a)) by reflexivity.
    rewrite Hor.
    destruct (endswith_sep (String c a)) eqn:Hend.
    + destruct (endswith_sep_split _ Hend) as [a' ->].
      rewrite append_assoc. by apply basename_after_sep.
    + by apply basename_after_sep.
Qed.

(** X21: whatever the data directory, with or without a trailing slash or
    empty, the file part of the signals mask is the pattern "A*.hea" and
    the file part of the labels path is "REFERENCE.csv". *)
Theorem dataset_paths_file_part (data_dir : string) :
  basename (SIGNALS_MASK data_dir) = "A*.hea"
  /\ basename (LABELS_PATH data_dir) = "REFERENCE.csv".
Proof. split; by apply basename_os_path_join. Qed.

(** X22: the signals mask is always a glob pattern; the labels path is
    one only if the data directory itself has a wildcard character. *)
Theorem dataset_paths_wildcards (data_dir : string) :
  has_magic (SIGNALS_MASK data_dir) = true
  /\ has_magic (LABELS_PATH data_dir) = has_magic data_dir.
Proof.
  unfold SIGNALS_MASK, LABELS_PATH.
  destruct (os_path_join_relative data_dir signals_pattern eq_refl)
    as (sep1 & Hsep1 & ->).
  destruct (os_path_join_relative data_dir labels_file eq_refl)
    as (sep2 & Hsep2 & ->).
  rewrite !has_magic_append. split.
  - change (has_magic signals_pattern) with true. by rewrite !orb_true_r.
  - change (has_magic labels_file) with false.
    destruct Hsep2 as [-> | ->]; simpl; by rewrite !orb_false_r.
Qed.

End Paths.
